(** * AWSIoTAscoltatore: a shallow embedding of [lib/awsiot_ascoltatore.js]

    The adapter multiplexes many local subscribers over one broker
    connection.  The JavaScript object is a record, its methods are
    computations in a state-and-exception monad over that record, and the
    callbacks the adapter hands to the transport, to [steed.each] and to
    [defer] are first-order closures that the event loop runs later. *)

From Stdlib Require Import Ascii String.
From stdpp Require Import gmap strings list fin_maps.

(** ** Values *)

(** Defined JavaScript values that may sit in a publish option.  A property
    read that yields [undefined] is [None] at the place of use. *)
Inductive JSVal :=
| JNull
| JBool (b : bool)
| JNum (n : Z)
| JStr (s : string).

(** What [options.qos] and [options.retain] read as.  [None] is [undefined]:
    the field is omitted (a field holding [undefined] reads the same and
    the code cannot tell them apart). *)
Record PublishOptions := {
  qos : option JSVal;
  retain : option JSVal
}.

(** The [options] argument of [publish]: a falsy value ([undefined], [null],
    ...) or an object. *)
Inductive JSOptions :=
| OptionsFalsy
| OptionsObject (o : PublishOptions).

(** Exceptions. [TypeError] is what a method call on [undefined] raises. *)
Inductive JSError :=
| ClosedError
| TypeError
| PatternError.

(** Closures the adapter passes to the transport as acknowledgment
    callbacks.  User callbacks are known by identity; [done] is [None] when
    the caller passed no function. *)
Inductive Ack :=
| AckReconnect (join : nat) (topic : string)   (* reconnectTopics, l.97-100 *)
| AckSubscribe (done : option nat)             (* subscribe, l.117-120 *)
| AckPublish (done : option nat)               (* publish, l.136-139 *)
| AckUnsubscribe (done : option nat).          (* unsubscribe newDone, l.147-150 *)

(** Calls made on the transport handle, in the order they were made. *)
Inductive TransportCall :=
| TSubscribe (topic : string) (qos : Z) (ack : Ack)
| TUnsubscribe (topic : string) (ack : Ack)
| TPublish (topic : string) (message : string) (qos retain : JSVal) (ack : Ack)
| TOnceClose (done : option nat)
| TEnd.

(** Work posted by [defer] for a later turn of the event loop. *)
Inductive Task :=
| TaskDone (done : nat)
| TaskDeliver (topic payload packet : string).

(** Events the adapter emits.  [EvReady j] is the plain "ready" event; [j]
    records which [reconnectTopics] run completed. *)
Inductive Emitted :=
| EvReady (join : nat)
| EvError (e : string)
| EvClosed.

#[global] Instance JSVal_eq_dec : EqDecision JSVal.
Proof. solve_decision. Defined.
#[global] Instance Ack_eq_dec : EqDecision Ack.
Proof. solve_decision. Defined.
#[global] Instance TransportCall_eq_dec : EqDecision TransportCall.
Proof. solve_decision. Defined.
#[global] Instance Emitted_eq_dec : EqDecision Emitted.
Proof. solve_decision. Defined.

(** ** SubsCounter *)

Module SubsCounter.

(** Modelled from the spec: [lib/subs_counter.js] is not among the sources.
    Section 4.1: a mapping from pattern to the number of local
    subscribers; [add] increments, [remove] decrements and is a silent
    no-op at zero, [include] is count > 0, [keys] is the patterns with
    count > 0, [clear] resets every count. *)
Definition count (c : gmap string nat) (pattern : string) : nat :=
  default 0 (c !! pattern).

(** Modelled from the spec: [include(pattern)], true iff count > 0. *)
Definition include (c : gmap string nat) (pattern : string) : bool :=
  bool_decide (0 < count c pattern).

(** Modelled from the spec: [add(pattern)] increments the count; returns
    [wasFirst] and the new mapping. *)
Definition add (c : gmap string nat) (pattern : string) : bool * gmap string nat :=
  (bool_decide (count c pattern = 0), <[pattern := S (count c pattern)]> c).

(** Modelled from the spec: [remove(pattern)] decrements the count and is a
    silent no-op at zero; returns [wasLast] and the new mapping. *)
Definition remove (c : gmap string nat) (pattern : string) : bool * gmap string nat :=
  match count c pattern with
  | 0 => (false, c)
  | 1 => (true, delete pattern c)
  | S n => (false, <[pattern := n]> c)
  end.

(** Modelled from the spec: [keys()], a snapshot of the patterns with
    count > 0, in no particular order. *)
Definition keys (c : gmap string nat) : list string :=
  filter (λ p, 0 < count c p) (map_to_list c).*1.

(** Modelled from the spec: [clear()] resets every count. *)
Definition clear : gmap string nat := ∅.

End SubsCounter.

(** ** TrieAscoltatore *)

Module TrieAscoltatore.

(** Modelled from the spec: [lib/trie_ascoltatore.js] is not among the
    sources.  Section 4.2: callbacks registered under a pattern are kept
    as a set, so registering the same callback for the same pattern twice
    leaves one entry; [unsubscribe] removes that one callback; [close]
    discards everything; a malformed pattern is a construction error at
    subscribe time.  The trie walk that resolves a literal topic to
    callbacks is outside this development: [publish] records the
    hand-off it received. *)
Record t := {
  registrations : gset (string * nat);
  published : list (string * string * string)
}.

(** Modelled from the spec: the engine a new adapter starts with. *)
Definition empty : t := {| registrations := ∅; published := [] |}.

(** Modelled from the spec: a topic is segments separated by a fixed
    delimiter, here the adapter's ["/"]. *)
Fixpoint segments_from (s cur : string) : list string :=
  match s with
  | EmptyString => [cur]
  | String c rest =>
      if Ascii.eqb c "/"%char then cur :: segments_from rest EmptyString
      else segments_from rest (cur +:+ String c EmptyString)
  end.

Definition segments (s : string) : list string := segments_from s EmptyString.

Fixpoint multi_level_last (segs : list string) : bool :=
  match segs with
  | [] => true
  | [_] => true
  | s :: rest => negb (String.eqb s "#") && multi_level_last rest
  end.

(** Modelled from the spec: sections 4.2 and 7, an empty pattern, or a
    multi-level wildcard that is not the final segment, is rejected. *)
Definition well_formed (pattern : string) : bool :=
  negb (String.eqb pattern "") && multi_level_last (segments pattern).

(** Modelled from the spec: [subscribe(pattern, callback)]; [None] is the
    construction error. *)
Definition subscribe (pattern : string) (callback : nat) (tr : t) : option t :=
  if well_formed pattern
  then Some {| registrations := {[ (pattern, callback) ]} ∪ registrations tr;
               published := published tr |}
  else None.

(** Modelled from the spec: [unsubscribe(pattern, callback)]. *)
Definition unsubscribe (pattern : string) (callback : nat) (tr : t) : t :=
  {| registrations := registrations tr ∖ {[ (pattern, callback) ]};
     published := published tr |}.

(** Modelled from the spec: [publish(topic, payload)], as the record of
    the hand-off. *)
Definition publish (topic payload packet : string) (tr : t) : t :=
  {| registrations := registrations tr;
     published := published tr ++ [(topic, payload, packet)] |}.

(** Modelled from the spec: [close()] discards all trie state. *)
Definition close (tr : t) : t :=
  {| registrations := ∅; published := published tr |}.

(** callbacks registered under exactly this pattern string *)
Definition registered (tr : t) (pattern : string) : gset (string * nat) :=
  filter (λ r, r.1 = pattern) (registrations tr).

End TrieAscoltatore.

(** ** The adapter and its surroundings *)

(** The first four fields are the adapter object's own ([this._client],
    [this._closed], [this._subs_counter], [this._ascoltatore]).  The rest is
    what the adapter acts on: the transport object (calls received,
    acknowledgments owed, [once("close")] listeners), [steed]'s joint
    completions, the event loop's queue, and logs of what was emitted and
    which user callbacks have run. *)
Record World := {
  _client : option nat;
  _closed : bool;
  _subs_counter : gmap string nat;
  _ascoltatore : TrieAscoltatore.t;
  emitted : list Emitted;
  wire : list TransportCall;
  pending : list Ack;
  close_listeners : list (option nat);
  joins : list nat;
  tasks : list Task;
  invoked : list nat;
  connections : nat
}.

Definition set_client (v : option nat) (w : World) : World :=
  {| _client := v; _closed := _closed w; _subs_counter := _subs_counter w;
     _ascoltatore := _ascoltatore w; emitted := emitted w; wire := wire w;
     pending := pending w; close_listeners := close_listeners w;
     joins := joins w; tasks := tasks w; invoked := invoked w;
     connections := connections w |}.

Definition set_closed (v : bool) (w : World) : World :=
  {| _client := _client w; _closed := v; _subs_counter := _subs_counter w;
     _ascoltatore := _ascoltatore w; emitted := emitted w; wire := wire w;
     pending := pending w; close_listeners := close_listeners w;
     joins := joins w; tasks := tasks w; invoked := invoked w;
     connections := connections w |}.

Definition set_subs_counter (v : gmap string nat) (w : World) : World :=
  {| _client := _client w; _closed := _closed w; _subs_counter := v;
     _ascoltatore := _ascoltatore w; emitted := emitted w; wire := wire w;
     pending := pending w; close_listeners := close_listeners w;
     joins := joins w; tasks := tasks w; invoked := invoked w;
     connections := connections w |}.

Definition set_ascoltatore (v : TrieAscoltatore.t) (w : World) : World :=
  {| _client := _client w; _closed := _closed w; _subs_counter := _subs_counter w;
     _ascoltatore := v; emitted := emitted w; wire := wire w;
     pending := pending w; close_listeners := close_listeners w;
     joins := joins w; tasks := tasks w; invoked := invoked w;
     connections := connections w |}.

Definition set_emitted (v : list Emitted) (w : World) : World :=
  {| _client := _client w; _closed := _closed w; _subs_counter := _subs_counter w;
     _ascoltatore := _ascoltatore w; emitted := v; wire := wire w;
     pending := pending w; close_listeners := close_listeners w;
     joins := joins w; tasks := tasks w; invoked := invoked w;
     connections := connections w |}.

Definition set_wire (v : list TransportCall) (w : World) : World :=
  {| _client := _client w; _closed := _closed w; _subs_counter := _subs_counter w;
     _ascoltatore := _ascoltatore w; emitted := emitted w; wire := v;
     pending := pending w; close_listeners := close_listeners w;
     joins := joins w; tasks := tasks w; invoked := invoked w;
     connections := connections w |}.

Definition set_pending (v : list Ack) (w : World) : World :=
  {| _client := _client w; _closed := _closed w; _subs_counter := _subs_counter w;
     _ascoltatore := _ascoltatore w; emitted := emitted w; wire := wire w;
     pending := v; close_listeners := close_listeners w;
     joins := joins w; tasks := tasks w; invoked := invoked w;
     connections := connections w |}.

Definition set_close_listeners (v : list (option nat)) (w : World) : World :=
  {| _client := _client w; _closed := _closed w; _subs_counter := _subs_counter w;
     _ascoltatore := _ascoltatore w; emitted := emitted w; wire := wire w;
     pending := pending w; close_listeners := v;
     joins := joins w; tasks := tasks w; invoked := invoked w;
     connections := connections w |}.

Definition set_joins (v : list nat) (w : World) : World :=
  {| _client := _client w; _closed := _closed w; _subs_counter := _subs_counter w;
     _ascoltatore := _ascoltatore w; emitted := emitted w; wire := wire w;
     pending := pending w; close_listeners := close_listeners w;
     joins := v; tasks := tasks w; invoked := invoked w;
     connections := connections w |}.

Definition set_tasks (v : list Task) (w : World) : World :=
  {| _client := _client w; _closed := _closed w; _subs_counter := _subs_counter w;
     _ascoltatore := _ascoltatore w; emitted := emitted w; wire := wire w;
     pending := pending w; close_listeners := close_listeners w;
     joins := joins w; tasks := v; invoked := invoked w;
     connections := connections w |}.

Definition set_invoked (v : list nat) (w : World) : World :=
  {| _client := _client w; _closed := _closed w; _subs_counter := _subs_counter w;
     _ascoltatore := _ascoltatore w; emitted := emitted w; wire := wire w;
     pending := pending w; close_listeners := close_listeners w;
     joins := joins w; tasks := tasks w; invoked := v;
     connections := connections w |}.

Definition set_connections (v : nat) (w : World) : World :=
  {| _client := _client w; _closed := _closed w; _subs_counter := _subs_counter w;
     _ascoltatore := _ascoltatore w; emitted := emitted w; wire := wire w;
     pending := pending w; close_listeners := close_listeners w;
     joins := joins w; tasks := tasks w; invoked := invoked w;
     connections := v |}.

(** ** Computations that read and write the world and may throw *)

Inductive Outcome (A : Type) :=
| Ok (a : A) (w : World)
| Throw (e : JSError) (w : World).
Arguments Ok {A} a w.
Arguments Throw {A} e w.

Definition M (A : Type) : Type := World → Outcome A.

#[global] Instance M_ret : MRet M := λ A a w, Ok a w.
#[global] Instance M_bind : MBind M := λ A B f m w,
  match m w with
  | Ok a w' => f a w'
  | Throw e w' => Throw e w'
  end.

Definition gets {A} (f : World → A) : M A := λ w, Ok (f w) w.
Definition modify (f : World → World) : M unit := λ w, Ok tt (f w).
Definition throw {A} (e : JSError) : M A := λ w, Throw e w.

(** Binding a result; the computation is read before its continuation. *)
Definition bind {A B} (m : M A) (f : A → M B) : M B := mbind f m.
Notation "'let*' x ':=' m 'in' k" := (bind m (λ x, k))
  (at level 10, x name, m at level 100, k at level 200, only parsing).

(** the world a computation leaves behind, thrown or not *)
Definition world_of {A} (o : Outcome A) : World :=
  match o with Ok _ w => w | Throw _ w => w end.

Fixpoint for_each {A} (f : A → M unit) (l : list A) : M unit :=
  match l with
  | [] => mret tt
  | x :: rest => f x ;; for_each f rest
  end.

(** ** Helpers the adapter imports *)

(** Modelled from the spec: [lib/util.js] is not among the sources.
    Sections 4.3, 4.4 and 9: [defer] posts the callback to the task queue so
    that it runs in a later turn, never inside the caller's stack; what is
    not a function is dropped. *)
Definition defer (f : option Task) : M unit :=
  match f with
  | Some t => modify (λ w, set_tasks (tasks w ++ [t]) w)
  | None => mret tt
  end.

(** Modelled from the spec: [util.wrap] is not among the sources; the
    adapter imports it beside [defer] and uses the two apart.  Section 4.6:
    the call [wrap(done)()] invokes [done] immediately, in the stack that
    makes the call; what is not a function is dropped.  [wrap done] is the
    call [wrap(done)()]. *)
Definition wrap (done : option nat) : M unit :=
  match done with
  | Some d => modify (λ w, set_invoked (invoked w ++ [d]) w)
  | None => mret tt
  end.

(** Modelled from the spec: [lib/abstract_ascoltatore.js] is not among the
    sources.  Sections 4.3, 4.6 and 9: a state field consulted at the start
    of every operation; the adapter is Closed from the transport's close
    acknowledgment on, which is when "closed" is signalled.  [emit] records
    the event and, for "closed", sets the field. *)
Definition emit (ev : Emitted) : M unit :=
  modify (λ w, set_emitted (emitted w ++ [ev]) w) ;;
  match ev with
  | EvClosed => modify (set_closed true)
  | _ => mret tt
  end.

(** Modelled from the spec: the closed-state check of the base class is not
    among the sources.  Sections 4.6 and 7: an operation on a closed
    adapter fails fast with the "closed" error. *)
Definition _raiseIfClosed : M unit :=
  let* closed := gets _closed in
  if closed then throw ClosedError else mret tt.

(** The topic-naming collaborator ([_subTopic], [_pubTopic], [_recvTopic] of
    the base class), an injected strategy. *)
Class Naming := {
  _subTopic : string → string;
  _pubTopic : string → string;
  _recvTopic : string → string
}.

(** ** The transport handle *)

(** [this._client.m(...)]: reading the method off [undefined] raises a
    TypeError before any argument is evaluated. *)
Definition the_client : M nat :=
  let* c := gets _client in
  match c with
  | Some h => mret h
  | None => throw TypeError
  end.

Definition transport (call : TransportCall) : M unit :=
  the_client ;;
  modify (λ w, set_wire (wire w ++ [call]) w).

Definition expect (ack : Ack) : M unit :=
  modify (λ w, set_pending (pending w ++ [ack]) w).

Definition client_subscribe (topic : string) (q : Z) (ack : Ack) : M unit :=
  transport (TSubscribe topic q ack) ;; expect ack.

Definition client_unsubscribe (topic : string) (ack : Ack) : M unit :=
  transport (TUnsubscribe topic ack) ;; expect ack.

Definition client_publish (topic message : string) (q r : JSVal) (ack : Ack) : M unit :=
  transport (TPublish topic message q r ack) ;; expect ack.

Definition client_once_close (done : option nat) : M unit :=
  transport (TOnceClose done) ;;
  modify (λ w, set_close_listeners (close_listeners w ++ [done]) w).

Definition client_end : M unit := transport TEnd.

(** ** steed.each *)

(** [steed.each(list, iterator, done)] calls the iterator on every item, in
    order and in the same stack, each with its own release callback, and
    calls [done] once all of them have been released; on an empty list
    [done] is called at once.  [joins] holds, per call of [each], how many
    releases are still missing. *)
Definition steed_each (items : list string)
    (iterator : nat → string → M unit) (done : nat → M unit) : M unit :=
  let* j := gets (λ w, length (joins w)) in
  modify (λ w, set_joins (joins w ++ [length items]) w) ;;
  match items with
  | [] => done j
  | _ => for_each (iterator j) items
  end.

Definition release (j : nat) (done : nat → M unit) : M unit :=
  let* n := gets (λ w, default 0 (joins w !! j)) in
  modify (λ w, set_joins (<[j := pred n]> (joins w)) w) ;;
  if decide (n = 1) then done j else mret tt.

(** ** AWSIoTAscoltatore *)

Section Adapter.

Context {naming : Naming}.

(** l.54-85.  The three listeners registered here are [on_connect],
    [on_message] and [on_error] below. *)
Definition _startConn : M (option nat) :=
  let* c := gets _client in
  match c with
  | None =>
      modify (λ w, set_connections (S (connections w))
                     (set_client (Some (connections w)) w))
  | Some _ => mret tt
  end ;;
  gets _client.

(** l.87-105; [cb] is the completion the caller passes *)
Definition reconnectTopics (cb : nat → M unit) : M unit :=
  let* subscribedTopics := gets (λ w, SubsCounter.keys (_subs_counter w)) in
  steed_each subscribedTopics
    (λ j topic, client_subscribe (_subTopic topic) 1%Z (AckReconnect j topic))
    cb.

(** l.62-67 *)
Definition on_connect : M unit :=
  reconnectTopics (λ j, emit (EvReady j)).

(** l.69-76 *)
Definition on_message (topic payload packet : string) : M unit :=
  defer (Some (TaskDeliver (_recvTopic topic) payload packet)).

(** l.77-82 *)
Definition on_error (e : string) : M unit :=
  modify (set_client None) ;;
  emit (EvError e).

(** l.107-128 *)
Definition subscribe (topic : string) (callback : nat) (done : option nat) : M unit :=
  _raiseIfClosed ;;
  let* included := gets (λ w, SubsCounter.include (_subs_counter w) topic) in
  (if negb included
   then client_subscribe (_subTopic topic) 1%Z (AckSubscribe done)
   else defer (TaskDone <$> done)) ;;
  modify (λ w, set_subs_counter (SubsCounter.add (_subs_counter w) topic).2 w) ;;
  let* tr := gets _ascoltatore in
  match TrieAscoltatore.subscribe topic callback tr with
  | Some tr' => modify (set_ascoltatore tr')
  | None => throw PatternError
  end.

(** l.130-140 *)
Definition publish (topic message : string) (options : JSOptions)
    (done : option nat) : M unit :=
  _raiseIfClosed ;;
  client_publish (_pubTopic topic) message
    (match options with
     | OptionsObject {| qos := Some q |} => q
     | _ => JNum 1
     end)
    (match options with
     | OptionsObject {| retain := Some r |} => r
     | _ => JBool false
     end)
    (AckPublish done).

(** l.142-162 *)
Definition unsubscribe (topic : string) (callback : nat) (done : option nat) : M unit :=
  _raiseIfClosed ;;
  let newDone := defer (TaskDone <$> done) in
  modify (λ w, set_ascoltatore
                 (TrieAscoltatore.unsubscribe topic callback (_ascoltatore w)) w) ;;
  modify (λ w, set_subs_counter (SubsCounter.remove (_subs_counter w) topic).2 w) ;;
  let* included := gets (λ w, SubsCounter.include (_subs_counter w) topic) in
  if included
  then newDone
  else client_unsubscribe (_subTopic topic) (AckUnsubscribe done).

(** l.169-175, the listener [close] registers on the transport *)
Definition on_closed (done : option nat) : M unit :=
  modify (λ w, set_ascoltatore (TrieAscoltatore.close (_ascoltatore w)) w) ;;
  modify (set_client None) ;;
  emit EvClosed ;;
  defer (TaskDone <$> done).

(** l.164-180 *)
Definition close (done : option nat) : M unit :=
  let* closed := gets _closed in
  if negb closed
  then
    modify (set_subs_counter SubsCounter.clear) ;;
    client_once_close done ;;
    client_end
  else wrap done.

(** l.24-39: a fresh adapter, with its counter, its dispatch engine and
    the connection [_startConn] opens.  The options only configure the
    transport factory and are left out. *)
Definition AWSIoTAscoltatore : World :=
  world_of (_startConn
    {| _client := None; _closed := false;
       _subs_counter := SubsCounter.clear;
       _ascoltatore := TrieAscoltatore.empty;
       emitted := []; wire := []; pending := []; close_listeners := [];
       joins := []; tasks := []; invoked := []; connections := 0 |}).

(** ** What runs the adapter *)

(** the body of an acknowledgment callback *)
Definition acknowledge (ack : Ack) : M unit :=
  match ack with
  | AckReconnect j _ => release j (λ j, emit (EvReady j))
  | AckSubscribe done => defer (TaskDone <$> done)
  | AckPublish done => wrap done
  | AckUnsubscribe done => defer (TaskDone <$> done)
  end.

Definition run_task (t : Task) : M unit :=
  match t with
  | TaskDone d => modify (λ w, set_invoked (invoked w ++ [d]) w)
  | TaskDeliver topic payload packet =>
      modify (λ w, set_ascoltatore
                     (TrieAscoltatore.publish topic payload packet (_ascoltatore w)) w)
  end.

(** Calls on the adapter surface, events of the transport object, and
    turns of the event loop.  The transport object outlives the handle
    the adapter keeps to it, so its events may arrive in any state. *)
Inductive Event :=
| CallSubscribe (topic : string) (callback : nat) (done : option nat)
| CallUnsubscribe (topic : string) (callback : nat) (done : option nat)
| CallPublish (topic message : string) (options : JSOptions) (done : option nat)
| CallClose (done : option nat)
| OnConnect
| OnMessage (topic payload packet : string)
| OnError (e : string)
| OnClose
| OnAck (i : nat)
| NextTick.

Definition step (ev : Event) : M unit :=
  match ev with
  | CallSubscribe topic callback done => subscribe topic callback done
  | CallUnsubscribe topic callback done => unsubscribe topic callback done
  | CallPublish topic message options done => publish topic message options done
  | CallClose done => close done
  | OnConnect => on_connect
  | OnMessage topic payload packet => on_message topic payload packet
  | OnError e => on_error e
  | OnClose =>
      (* [once]: every listener runs, and is dropped before it runs *)
      let* ls := gets close_listeners in
      modify (set_close_listeners []) ;;
      for_each on_closed ls
  | OnAck i =>
      (* the transport answers the [i]-th call it still owes an answer *)
      let* p := gets pending in
      match p !! i with
      | Some ack => modify (set_pending (delete i p)) ;; acknowledge ack
      | None => mret tt
      end
  | NextTick =>
      let* q := gets tasks in
      match q with
      | t :: rest => modify (set_tasks rest) ;; run_task t
      | [] => mret tt
      end
  end.

Definition after (ev : Event) (w : World) : World := world_of (step ev w).

Definition run (evs : list Event) (w : World) : World :=
  foldl (λ w ev, after ev w) w evs.

End Adapter.

(** The naming of a broker whose separator and wildcards are the adapter's
    own: topics pass through unchanged. *)
Definition plain_naming : Naming :=
  {| _subTopic := λ t, t; _pubTopic := λ t, t; _recvTopic := λ t, t |}.

(** ** Vocabulary of the properties *)

(** number of entries of a log that satisfy a test *)
Definition tally {A} (p : A → bool) (l : list A) : nat := length (List.filter p l).

Definition is_broker_subscribe (topic : string) (c : TransportCall) : bool :=
  match c with
  | TSubscribe t _ _ => bool_decide (t = topic)
  | _ => false
  end.

Definition is_broker_unsubscribe (topic : string) (c : TransportCall) : bool :=
  match c with
  | TUnsubscribe t _ => bool_decide (t = topic)
  | _ => false
  end.

Definition is_end (c : TransportCall) : bool :=
  match c with
  | TEnd => true
  | _ => false
  end.

Definition owes (j : nat) (a : Ack) : bool :=
  match a with
  | AckReconnect j' _ => bool_decide (j' = j)
  | _ => false
  end.

(** the option a publish applies when the caller leaves it out, in the
    words of section 4.4: the default unless [options] carries the field *)
Definition option_or_default (options : JSOptions)
    (field : PublishOptions → option JSVal) (d : JSVal) : JSVal :=
  match options with
  | OptionsFalsy => d
  | OptionsObject o => default d (field o)
  end.

Definition done_task (done : option nat) : list Task :=
  match done with
  | Some d => [TaskDone d]
  | None => []
  end.

Section Vocabulary.

Context {naming : Naming}.

Definition count_of (w : World) (pattern : string) : nat :=
  SubsCounter.count (_subs_counter w) pattern.

(** registrations live in the dispatch engine for exactly this pattern *)
Definition live (w : World) (pattern : string) : nat :=
  size (TrieAscoltatore.registered (_ascoltatore w) pattern).

Definition broker_subscribes (pattern : string) (w : World) : nat :=
  tally (is_broker_subscribe (_subTopic pattern)) (wire w).

Definition broker_unsubscribes (pattern : string) (w : World) : nat :=
  tally (is_broker_unsubscribe (_subTopic pattern)) (wire w).

Definition ends (w : World) : nat := tally is_end (wire w).

(** the broker-level subscribes that replay a list of patterns, each at
    quality-of-service 1 and each with the release of join [j] *)
Definition resubscription (j : nat) (patterns : list string) : list TransportCall :=
  map (λ t, TSubscribe (_subTopic t) 1%Z (AckReconnect j t)) patterns.

(** A subscriber's calls on one pattern. *)
Inductive Op :=
| Sub (callback : nat) (done : option nat)
| Unsub (callback : nat) (done : option nat).

Definition call (pattern : string) (o : Op) : Event :=
  match o with
  | Sub callback done => CallSubscribe pattern callback done
  | Unsub callback done => CallUnsubscribe pattern callback done
  end.

(** how often the pattern's count goes from [a] to [b] along the calls *)
Fixpoint transitions (a b : nat) (pattern : string) (ops : list Op) (w : World) : nat :=
  match ops with
  | [] => 0
  | o :: rest =>
      let w' := after (call pattern o) w in
      (if decide (count_of w pattern = a ∧ count_of w' pattern = b) then 1 else 0)
      + transitions a b pattern rest w'
  end.

(** every unsubscribe finds the pattern counted *)
Fixpoint counted (pattern : string) (ops : list Op) (w : World) : bool :=
  match ops with
  | [] => true
  | o :: rest =>
      match o with
      | Sub _ _ => true
      | Unsub _ _ => bool_decide (0 < count_of w pattern)
      end && counted pattern rest (after (call pattern o) w)
  end.

(** A disciplined use of the surface: a subscribe registers a well-formed
    pattern with a callback not yet registered for it, an unsubscribe
    names a registration that is live, and [close] is not called. *)
Fixpoint disciplined (evs : list Event) (w : World) : bool :=
  match evs with
  | [] => true
  | ev :: rest =>
      match ev with
      | CallSubscribe topic callback _ =>
          TrieAscoltatore.well_formed topic
          && bool_decide ((topic, callback) ∉ TrieAscoltatore.registrations (_ascoltatore w))
      | CallUnsubscribe topic callback _ =>
          bool_decide ((topic, callback) ∈ TrieAscoltatore.registrations (_ascoltatore w))
      | CallClose _ => false
      | _ => true
      end && disciplined rest (after ev w)
  end.

(** a pattern is in the counter's mapping exactly when its count is
    positive *)
Definition counts_positive (w : World) : Prop :=
  map_Forall (λ _ n, 0 < n) (_subs_counter w).

(** what [steed] and the transport know of the joint completions: no join
    is owed more releases than it still waits for, and a join that has
    signalled "ready" waits for none *)
Definition joins_sound (w : World) : Prop :=
  ∀ j, tally (owes j) (pending w) ≤ default 0 (joins w !! j)
       ∧ (EvReady j ∈ emitted w → joins w !! j = Some 0).

End Vocabulary.


(** ** Scenarios *)

(** the pattern of the scenario of section 8 *)
Definition temperature : string := "home/+/temp".

(** three callbacks share the pattern, two of them leave again *)
Definition shared_pattern : list Op :=
  [Sub 1 (Some 10); Sub 2 None; Unsub 1 None; Unsub 2 (Some 11); Sub 3 None].

(** a callback unsubscribes twice *)
Definition unsubscribed_twice : list Op :=
  [Sub 1 None; Unsub 1 None; Unsub 1 None].

(** a subscription is taken, then the transport reports an error *)
Definition subscribed_then_error : list Event :=
  [CallSubscribe temperature 1 None; OnError "reset"].

(** the same callback subscribes twice to the same pattern *)
Definition subscribed_twice : list Event :=
  [CallSubscribe temperature 1 None; CallSubscribe temperature 1 None].

(** two callbacks on one pattern, a message, one of them leaves; after an
    error event a third subscription is refused *)
Definition two_subscribers : list Event :=
  [CallSubscribe temperature 1 None; CallSubscribe temperature 2 (Some 10);
   OnAck 0; OnMessage "home/kitchen/temp" "21" ""; NextTick; NextTick;
   CallUnsubscribe temperature 1 None; OnError "reset";
   CallSubscribe "a/#" 3 None].

(** the transport fails while a close is in progress, then closes *)
Definition error_while_closing : list Event :=
  [CallClose None; OnError "reset"; OnClose].
(** two closes before the transport's close event *)
Definition closed_twice : list Event :=
  [CallSubscribe temperature 1 None; CallClose (Some 1); CallClose (Some 2)].

(** two patterns are subscribed *)
Definition two_patterns : list Event :=
  [CallSubscribe temperature 1 None; CallSubscribe "a/#" 2 None].

(** a busy run on which [close] is never called *)
Definition never_closed : list Event :=
  [CallSubscribe temperature 1 None; OnConnect; OnAck 0; OnClose;
   OnError "reset"; OnClose; CallPublish "a/b" "hello" OptionsFalsy None].

(** ** The constructor's options *)

(** JavaScript truthiness of a defined value *)
Definition truthy (v : JSVal) : bool :=
  match v with
  | JNull => false
  | JBool b => b
  | JNum n => negb (n =? 0)%Z
  | JStr s => negb (String.eqb s "")
  end.

(** the transport factory: the one the caller injects, or the SDK module *)
Inductive Factory :=
| Sdk
| Injected (id : nat).

(** What the constructor reads of [opts]; [None] is a field that reads
    [undefined]. *)
Record Options := {
  keepalive : option JSVal;
  awsiot : option Factory
}.

(** l.31-33: [opts || {}], then the two [||] defaults.  A factory is an
    object and always truthy. *)
Definition constructor_options (opts : option Options) : Options :=
  let o := default {| keepalive := None; awsiot := None |} opts in
  {| keepalive := Some (match keepalive o with
                        | Some v => if truthy v then v else JNum 3000
                        | None => JNum 3000
                        end);
     awsiot := Some (default Sdk (awsiot o)) |}.

(** ** More vocabulary *)

Definition at_least_once (c : TransportCall) : Prop :=
  match c with
  | TSubscribe _ q _ => q = 1%Z
  | _ => True
  end.

Definition is_close (ev : Event) : bool :=
  match ev with
  | CallClose _ => true
  | _ => false
  end.


(** what the transport's close event leaves when it runs the listeners of
    the closes [dones] *)
Definition closed_by (dones : list (option nat)) (w : World) : World :=
  set_tasks (tasks w ++ concat (done_task <$> dones))
    (set_closed true
      (set_emitted (emitted w ++ replicate (length dones) EvClosed)
        (set_client None
          (set_ascoltatore (TrieAscoltatore.close (_ascoltatore w))
            (set_close_listeners [] w))))).

(** * Properties *)

#[local] Set Warnings "-clear-no-such-hyp".

Section Properties.

Context {naming : Naming}.

(** unfolding the methods down to the world they leave *)
Ltac exec :=
  unfold after, step, subscribe, unsubscribe, publish, close, on_connect,
    on_message, on_error, on_closed, acknowledge, run_task, reconnectTopics,
    steed_each, release, client_subscribe, client_unsubscribe,
    client_publish, client_once_close, client_end, transport, expect,
    the_client, _raiseIfClosed, emit, wrap, defer, bind, gets, modify,
    throw, world_of, mbind, M_bind, mret, M_ret, fmap, option_fmap, option_map,
    TrieAscoltatore.subscribe, TrieAscoltatore.unsubscribe,
    TrieAscoltatore.publish, TrieAscoltatore.close in *;
  simpl in *.

(** ** Loops *)

Lemma for_each_preserves {A} (P : World → Prop) (f : A → M unit) (l : list A) :
  (∀ x w, P w → P (world_of (f x w))) →
  ∀ w, P w → P (world_of (for_each f l w)).
Proof.
  intros Hf. induction l as [|x l IH]; intros w Hw; [exact Hw|].
  simpl. unfold mbind, M_bind. specialize (Hf x w Hw).
  destruct (f x w) as [[] w'|e w']; simpl in *; auto.
Qed.

Lemma for_each_subscribe_held (f : string → string) (g : string → Ack)
    (items : list string) (w : World) (h : nat) :
  _client w = Some h →
  for_each (λ t, client_subscribe (f t) 1%Z (g t)) items w
  = Ok tt (set_pending (pending w ++ map g items)
            (set_wire (wire w ++ map (λ t, TSubscribe (f t) 1%Z (g t)) items) w)).
Proof.
  revert w. induction items as [|t items IH]; intros w Hc.
  - destruct w; simpl. rewrite !app_nil_r. reflexivity.
  - simpl. unfold mbind, M_bind.
    replace (client_subscribe (f t) 1%Z (g t) w)
      with (Ok tt (set_pending (pending w ++ [g t])
                     (set_wire (wire w ++ [TSubscribe (f t) 1%Z (g t)]) w)))
      by (destruct w; simpl in *; subst; exec; reflexivity).
    rewrite IH by (destruct w; exact Hc).
    destruct w; simpl. rewrite <- !app_assoc. reflexivity.
Qed.

Lemma for_each_subscribe_lost (f : string → string) (g : string → Ack)
    (t : string) (items : list string) (w : World) :
  _client w = None →
  for_each (λ t, client_subscribe (f t) 1%Z (g t)) (t :: items) w = Throw TypeError w.
Proof. intros Hc. destruct w; simpl in *; subst; exec. reflexivity. Qed.

(** the connect listener while the handle is held *)
Lemma on_connect_held (w : World) (h : nat) :
  _client w = Some h →
  step OnConnect w
  = Ok tt (set_emitted (emitted w ++ match SubsCounter.keys (_subs_counter w) with
                                      | [] => [EvReady (length (joins w))]
                                      | _ => []
                                      end)
            (set_pending (pending w ++ map (AckReconnect (length (joins w)))
                                         (SubsCounter.keys (_subs_counter w)))
              (set_wire (wire w ++ resubscription (length (joins w))
                                     (SubsCounter.keys (_subs_counter w)))
                (set_joins (joins w ++ [length (SubsCounter.keys (_subs_counter w))]) w)))).
Proof.
  intros Hc. unfold step, on_connect, reconnectTopics, steed_each, bind, gets, modify.
  unfold mbind, M_bind. simpl.
  destruct (SubsCounter.keys (_subs_counter w)) as [|k ks] eqn:Hk.
  - destruct w; exec. rewrite !app_nil_r. reflexivity.
  - rewrite for_each_subscribe_held with (h := h) by (destruct w; exact Hc).
    destruct w; simpl. rewrite !app_nil_r. reflexivity.
Qed.

(** the connect listener once the handle is gone *)
Lemma on_connect_lost (w : World) :
  _client w = None →
  step OnConnect w
  = match SubsCounter.keys (_subs_counter w) with
    | [] => Ok tt (set_emitted (emitted w ++ [EvReady (length (joins w))])
                    (set_joins (joins w ++ [0]) w))
    | ks => Throw TypeError (set_joins (joins w ++ [length ks]) w)
    end.
Proof.
  intros Hc. unfold step, on_connect, reconnectTopics, steed_each, bind, gets, modify.
  unfold mbind, M_bind. simpl.
  destruct (SubsCounter.keys (_subs_counter w)) as [|k ks] eqn:Hk.
  - destruct w; exec. reflexivity.
  - rewrite for_each_subscribe_lost by (destruct w; exact Hc). reflexivity.
Qed.

Lemma on_close_unfold (w : World) :
  step OnClose w = for_each on_closed (close_listeners w) (set_close_listeners [] w).
Proof. reflexivity. Qed.

(** closing out an event that is neither the connect nor the close
    listener: run it on an explicit world and split on every test *)
Ltac inner_case :=
  match goal with
  | |- context [match ?x with _ => _ end] =>
      lazymatch x with
      | context [match _ with _ => _ end] => fail
      | _ => destruct x eqn:?
      end
  end.

(** the same on a world about which the context knows something *)
Ltac known w := destruct w; simpl in *; subst; exec.

Ltac straight w :=
  destruct w; exec; repeat (inner_case; simpl in *; subst); try done.

(** what an event leaves untouched, shown listener by listener *)
Ltac by_event ev w on_closed_case :=
  destruct ev;
  [ straight w | straight w | straight w | straight w
  | let Hc := fresh "Hc" in
    unfold after; destruct (_client w) as [?|] eqn:Hc;
    [ rewrite (on_connect_held w _ Hc)
    | rewrite (on_connect_lost w Hc) ];
    destruct w; simpl in *; repeat (inner_case; simpl in *; subst); try done
  | straight w | straight w
  | unfold after; rewrite on_close_unfold; on_closed_case
  | straight w | straight w ].

(** ** What runs in whose stack *)

(** only the event loop publishes into the dispatch engine *)
Lemma engine_is_quiet (ev : Event) (w : World) :
  match ev with
  | NextTick => True
  | _ => TrieAscoltatore.published (_ascoltatore (after ev w))
         = TrieAscoltatore.published (_ascoltatore w)
  end.
Proof.
  by_event ev w
    ltac:(apply (for_each_preserves
             (λ w', TrieAscoltatore.published (_ascoltatore w')
                    = TrieAscoltatore.published (_ascoltatore w)));
          [ intros x w' H; straight w' | destruct w; auto ]).
Qed.

(** user callbacks run from the event loop, and from [wrap] in the publish
    acknowledgment and in [close] *)
Lemma callbacks_wait (ev : Event) (w : World) :
  match ev with
  | NextTick | OnAck _ | CallClose _ => True
  | _ => invoked (after ev w) = invoked w
  end.
Proof.
  by_event ev w
    ltac:(apply (for_each_preserves (λ w', invoked w' = invoked w));
          [ intros x w' H; straight w' | destruct w; auto ]).
Qed.

(** ** Publishing *)

Lemma publish_step (w : World) (h : nat)
    (topic message : string) (options : JSOptions) (done : option nat) :
  _client w = Some h → _closed w = false →
  step (CallPublish topic message options done) w
  = Ok tt (set_pending (pending w ++ [AckPublish done])
            (set_wire (wire w ++ [TPublish (_pubTopic topic) message
                                    (option_or_default options qos (JNum 1))
                                    (option_or_default options retain (JBool false))
                                    (AckPublish done)]) w)).
Proof.
  intros Hc Ho. known w.
  destruct options as [|[[q|] [r|]]]; reflexivity.
Qed.

(** C3. A publish on an open adapter that holds its transport handle makes
    one transport publish call, on the wire-level topic, whose
    quality-of-service is the one in [options] when [options] carries it
    and 1 (at least once) when [options] is absent or omits it, and whose
    retain flag is the one in [options] when carried and false otherwise;
    and it owes the acknowledgment of that call. *)
Theorem publish_applies_defaults (w : World) (h : nat)
    (topic message : string) (options : JSOptions) (done : option nat)
    (Hclient : _client w = Some h) (Hopen : _closed w = false) :
  step (CallPublish topic message options done) w
  = Ok tt (set_pending (pending w ++ [AckPublish done])
            (set_wire (wire w ++ [TPublish (_pubTopic topic) message
                                    (option_or_default options qos (JNum 1))
                                    (option_or_default options retain (JBool false))
                                    (AckPublish done)]) w)).
Proof. exact (publish_step w h topic message options done Hclient Hopen). Qed.

(** ** Deferral of inbound messages *)

(** C4. The message listener returns without having called the dispatch
    engine: it leaves the engine as it was and posts one task carrying
    the local topic and the payload.  The engine's publish happens when
    the event loop reaches that task; no call on the adapter and no
    transport event publishes into the engine in its own stack. *)
Theorem message_dispatch_is_deferred (w : World) (topic payload packet : string) :
  step (OnMessage topic payload packet) w
  = Ok tt (set_tasks (tasks w ++ [TaskDeliver (_recvTopic topic) payload packet]) w)
  ∧ _ascoltatore (after (OnMessage topic payload packet) w) = _ascoltatore w
  ∧ (∀ (w' : World) (rest : list Task),
       after NextTick
         (set_tasks (TaskDeliver (_recvTopic topic) payload packet :: rest) w')
       = set_ascoltatore
           (TrieAscoltatore.publish (_recvTopic topic) payload packet (_ascoltatore w'))
           (set_tasks rest w'))
  ∧ (∀ (ev : Event) (w' : World),
       match ev with
       | NextTick => True
       | _ => TrieAscoltatore.published (_ascoltatore (after ev w'))
              = TrieAscoltatore.published (_ascoltatore w')
       end).
Proof.
  split; [reflexivity|]. split; [destruct w; reflexivity|]. split.
  - intros w' rest. destruct w'; reflexivity.
  - intros ev w'. pose proof (engine_is_quiet ev w') as H.
    destruct ev; try exact I; exact H.
Qed.

(** ** Transport errors *)

(** C6. The error listener deletes the handle and emits "error" with the
    error; the subscription counter and the dispatch engine are as
    before, no call is made on the transport, no connection is opened and
    nothing is posted to the event loop. *)
Theorem error_event_keeps_subscriptions (w : World) (e : string) :
  step (OnError e) w = Ok tt (set_emitted (emitted w ++ [EvError e]) (set_client None w))
  ∧ _client (after (OnError e) w) = None
  ∧ emitted (after (OnError e) w) = emitted w ++ [EvError e]
  ∧ _subs_counter (after (OnError e) w) = _subs_counter w
  ∧ _ascoltatore (after (OnError e) w) = _ascoltatore w
  ∧ wire (after (OnError e) w) = wire w
  ∧ pending (after (OnError e) w) = pending w
  ∧ connections (after (OnError e) w) = connections w
  ∧ tasks (after (OnError e) w) = tasks w.
Proof. destruct w. repeat split. Qed.


Lemma tally_app {A} (p : A → bool) (l k : list A) :
  tally p (l ++ k) = tally p l + tally p k.
Proof. unfold tally. rewrite List.filter_app, length_app. reflexivity. Qed.


(** ** The closed state *)





Lemma close_listeners_run (ls : list (option nat)) (w : World) :
  ls ≠ [] →
  _closed (world_of (for_each on_closed ls w)) = true
  ∧ _client (world_of (for_each on_closed ls w)) = None
  ∧ wire (world_of (for_each on_closed ls w)) = wire w.
Proof.
  destruct ls as [|d ls]; [done|]. intros _.
  change (for_each on_closed (d :: ls) w)
    with (mbind (λ _, for_each on_closed ls) (on_closed d) w).
  unfold mbind, M_bind.
  assert (∃ w1, on_closed d w = Ok tt w1
                ∧ _closed w1 = true ∧ _client w1 = None ∧ wire w1 = wire w)
    as (w1 & -> & H1 & H2 & H3)
    by (destruct w, d; exec; eauto).
  apply (for_each_preserves
           (λ w', _closed w' = true ∧ _client w' = None ∧ wire w' = wire w));
    [|auto].
  intros x w' (? & ? & ?). straight w'.
Qed.

(** a first close, then the transport's close event *)
Lemma close_then_close_event (w : World) (h : nat) (done : option nat) :
  _client w = Some h → _closed w = false →
  step (CallClose done) w
  = Ok tt (set_wire (wire w ++ [TOnceClose done; TEnd])
            (set_close_listeners (close_listeners w ++ [done])
              (set_subs_counter SubsCounter.clear w)))
  ∧ _closed (run [CallClose done; OnClose] w) = true
  ∧ _client (run [CallClose done; OnClose] w) = None
  ∧ ends (run [CallClose done; OnClose] w) = S (ends w).
Proof.
  intros Hc Ho.
  assert (step (CallClose done) w
          = Ok tt (set_wire (wire w ++ [TOnceClose done; TEnd])
                    (set_close_listeners (close_listeners w ++ [done])
                      (set_subs_counter SubsCounter.clear w)))) as Hstep.
  { known w. rewrite <- app_assoc. reflexivity. }
  split; [exact Hstep|].
  unfold run; simpl. unfold after at 2 4 6. rewrite Hstep. simpl.
  unfold after. rewrite on_close_unfold.
  edestruct (close_listeners_run) as (H1 & H2 & H3); [|rewrite H1, H2; unfold ends; rewrite H3].
  - destruct w as [? ? ? ? ? ? ? [|] ? ? ? ?]; simpl; done.
  - destruct w; simpl. rewrite tally_app. unfold tally. simpl. repeat split; lia.
Qed.






(** C5. [publish] neither runs nor posts [done]: it leaves the
    acknowledgment owed, so [done] is not invoked before the transport
    acknowledges.  The acknowledgment callback then calls [wrap(done)()]:
    [done] runs at once, inside the acknowledgment callback's own stack,
    and nothing is posted for a later turn. *)
Theorem publish_done_runs_in_ack_stack (w : World) (h : nat)
    (topic message : string) (options : JSOptions) (done : nat)
    (Hclient : _client w = Some h) (Hopen : _closed w = false) :
  let w1 := after (CallPublish topic message options (Some done)) w in
  let w2 := after (OnAck (length (pending w))) w1 in
  (invoked w1 = invoked w ∧ tasks w1 = tasks w
   ∧ pending w1 = pending w ++ [AckPublish (Some done)])
  ∧ (invoked w2 = invoked w ++ [done] ∧ tasks w2 = tasks w
     ∧ pending w2 = pending w).
Proof.
  intros w1 w2.
  assert (w1 = set_pending (pending w ++ [AckPublish (Some done)])
            (set_wire (wire w ++ [TPublish (_pubTopic topic) message
                                    (option_or_default options qos (JNum 1))
                                    (option_or_default options retain (JBool false))
                                    (AckPublish (Some done))]) w)) as Hw1.
  { unfold w1, after.
    rewrite (publish_step w h topic message options (Some done) Hclient Hopen).
    reflexivity. }
  subst w2. rewrite Hw1. clear w1 Hw1 Hclient Hopen.
  split.
  - destruct w; simpl. auto.
  - destruct w. unfold after, step, bind, gets, mbind, M_bind. simpl.
    rewrite list_lookup_middle by reflexivity.
    rewrite (delete_middle pending0 []), app_nil_r.
    exec. auto.
Qed.

(** ** A lost handle *)

Lemma lost_handle_stays_lost (ev : Event) (w : World) :
  _client w = None → _closed w = false → close_listeners w = [] →
  _client (after ev w) = None ∧ _closed (after ev w) = false
  ∧ close_listeners (after ev w) = [] ∧ connections (after ev w) = connections w.
Proof.
  intros Hc Ho Hl.
  by_event ev w ltac:(rewrite Hl; destruct w; simpl in *; auto).
Qed.

Lemma lost_handle_never_returns (evs : list Event) (w : World) :
  _client w = None → _closed w = false → close_listeners w = [] →
  _client (run evs w) = None ∧ _closed (run evs w) = false
  ∧ close_listeners (run evs w) = [] ∧ connections (run evs w) = connections w.
Proof.
  revert w. induction evs as [|ev evs IH]; intros w Hc Ho Hl; [auto|].
  destruct (lost_handle_stays_lost ev w Hc Ho Hl) as (H1 & H2 & H3 & H4).
  simpl. rewrite <- H4. apply IH; assumption.
Qed.

(** C10. After a transport error event on an adapter that is neither closed
    nor closing, and whatever happens afterwards, the handle stays
    absent and no connection is opened; a subscribe for a pattern whose
    count is 0, every publish and every close raise a TypeError at the
    absent handle (the close after it has cleared the counter). *)
Theorem operations_after_error (w : World) (e : string) (evs : list Event)
    (Hopen : _closed w = false) (Hidle : close_listeners w = []) :
  let w' := run (OnError e :: evs) w in
  _client w' = None
  ∧ connections w' = connections w
  ∧ (∀ topic callback done,
       count_of w' topic = 0 →
       step (CallSubscribe topic callback done) w' = Throw TypeError w')
  ∧ (∀ topic message options done,
       step (CallPublish topic message options done) w' = Throw TypeError w')
  ∧ (∀ done,
       step (CallClose done) w'
       = Throw TypeError (set_subs_counter SubsCounter.clear w')).
Proof.
  intros w'. subst w'.
  change (run (OnError e :: evs) w) with (run evs (after (OnError e) w)).
  destruct (lost_handle_never_returns evs (after (OnError e) w)) as (Hc & Ho & Hl & Hn);
    try (destruct w; simpl in *; auto; fail).
  set (w' := run evs (after (OnError e) w)) in *.
  split; [exact Hc|]. split; [rewrite Hn; destruct w; reflexivity|].
  clearbody w'. clear -Hc Ho.
  split; [|split].
  - intros topic callback done H0. unfold count_of in H0.
    known w'. unfold SubsCounter.include. rewrite H0. reflexivity.
  - intros. known w'. reflexivity.
  - intros. known w'. reflexivity.
Qed.

(** ** Reference counting *)

Lemma count_add (c : gmap string nat) (t : string) :
  SubsCounter.count (SubsCounter.add c t).2 t = S (SubsCounter.count c t).
Proof. unfold SubsCounter.add, SubsCounter.count. simpl. by rewrite lookup_insert_eq. Qed.

Lemma count_remove (c : gmap string nat) (t : string) :
  SubsCounter.count (SubsCounter.remove c t).2 t = pred (SubsCounter.count c t).
Proof.
  unfold SubsCounter.remove.
  destruct (SubsCounter.count c t) as [|[|n]] eqn:E; simpl.
  - exact E.
  - unfold SubsCounter.count. by rewrite lookup_delete_eq.
  - unfold SubsCounter.count. by rewrite lookup_insert_eq.
Qed.

Lemma subscribe_step (w : World) (h : nat) (topic : string) (callback : nat)
    (done : option nat) :
  _client w = Some h → _closed w = false →
  _client (after (CallSubscribe topic callback done) w) = Some h
  ∧ _closed (after (CallSubscribe topic callback done) w) = false
  ∧ count_of (after (CallSubscribe topic callback done) w) topic = S (count_of w topic)
  ∧ wire (after (CallSubscribe topic callback done) w)
    = wire w ++ (if decide (count_of w topic = 0)
                 then [TSubscribe (_subTopic topic) 1%Z (AckSubscribe done)]
                 else []).
Proof.
  intros Hc Ho. unfold count_of.
  pose proof (count_add (_subs_counter w) topic) as Hadd.
  known w. unfold SubsCounter.include. clear Hadd.
  destruct (SubsCounter.count _subs_counter0 topic) as [|n] eqn:E; simpl;
    destruct (TrieAscoltatore.well_formed topic), done; simpl;
    rewrite ?app_nil_r; repeat split;
    unfold SubsCounter.count at 1; rewrite lookup_insert_eq; simpl; by rewrite E.
Qed.

Lemma unsubscribe_step (w : World) (h : nat) (topic : string) (callback : nat)
    (done : option nat) :
  _client w = Some h → _closed w = false →
  _client (after (CallUnsubscribe topic callback done) w) = Some h
  ∧ _closed (after (CallUnsubscribe topic callback done) w) = false
  ∧ count_of (after (CallUnsubscribe topic callback done) w) topic = pred (count_of w topic)
  ∧ wire (after (CallUnsubscribe topic callback done) w)
    = wire w ++ (if decide (count_of w topic ≤ 1)
                 then [TUnsubscribe (_subTopic topic) (AckUnsubscribe done)]
                 else []).
Proof.
  intros Hc Ho. unfold count_of.
  pose proof (count_remove (_subs_counter w) topic) as Hrem.
  known w. unfold SubsCounter.include. rewrite Hrem. clear Hrem.
  destruct (SubsCounter.count _subs_counter0 topic) as [|[|n]] eqn:E; simpl;
    destruct done; simpl; rewrite ?app_nil_r; repeat split;
    rewrite ?count_remove, ?E; done.
Qed.

Lemma closed_rejects (w : World) (pattern : string) (o : Op) :
  _closed w = true → after (call pattern o) w = w.
Proof. intros Hw. destruct o; known w; reflexivity. Qed.

Lemma closed_counts_nothing (a b : nat) (w : World) (pattern : string) (ops : list Op) :
  _closed w = true → a ≠ b →
  run (map (call pattern) ops) w = w ∧ transitions a b pattern ops w = 0.
Proof.
  intros Hw Hab. induction ops as [|o ops [IH1 IH2]]; [done|].
  cbn [map run foldl transitions]. rewrite (closed_rejects w pattern o Hw).
  split; [exact IH1|]. rewrite IH2. case_decide; lia.
Qed.

Lemma open_calls_follow_transitions (w : World) (h : nat) (pattern : string)
    (ops : list Op) :
  _client w = Some h → _closed w = false → counted pattern ops w = true →
  broker_subscribes pattern (run (map (call pattern) ops) w)
  = broker_subscribes pattern w + transitions 0 1 pattern ops w
  ∧ broker_unsubscribes pattern (run (map (call pattern) ops) w)
    = broker_unsubscribes pattern w + transitions 1 0 pattern ops w.
Proof.
  revert w. induction ops as [|o ops IH]; intros w Hc Ho Hcnt; [simpl; lia|].
  cbn [counted] in Hcnt. apply andb_true_iff in Hcnt as [Hhere Hrest].
  cbn [map run foldl transitions].
  fold (run (map (call pattern) ops) (after (call pattern o) w)).
  destruct o as [cb d|cb d]; cbn [call] in *.
  - destruct (subscribe_step w h pattern cb d Hc Ho) as (Hc' & Ho' & Hn & Hw).
    destruct (IH _ Hc' Ho' Hrest) as [-> ->].
    unfold broker_subscribes at 1, broker_unsubscribes at 1. rewrite Hw, Hn.
    rewrite !tally_app.
    fold (broker_subscribes pattern w). fold (broker_unsubscribes pattern w).
    repeat case_decide; unfold tally; simpl;
      rewrite ?bool_decide_eq_true_2 by reflexivity; simpl; lia.
  - apply bool_decide_eq_true in Hhere.
    destruct (unsubscribe_step w h pattern cb d Hc Ho) as (Hc' & Ho' & Hn & Hw).
    destruct (IH _ Hc' Ho' Hrest) as [-> ->].
    unfold broker_subscribes at 1, broker_unsubscribes at 1. rewrite Hw, Hn.
    rewrite !tally_app.
    fold (broker_subscribes pattern w). fold (broker_unsubscribes pattern w).
    repeat case_decide; unfold tally; simpl;
      rewrite ?bool_decide_eq_true_2 by reflexivity; simpl; lia.
Qed.

Lemma subscribe_always (w : World) (pattern : string) (callback : nat)
    (done : option nat) :
  wire (after (CallSubscribe pattern callback done) w)
  = wire w ++ (if _closed w then []
               else if decide (count_of w pattern = 0)
               then (if _client w is Some _
                     then [TSubscribe (_subTopic pattern) 1%Z (AckSubscribe done)]
                     else [])
               else [])
  ∧ count_of (after (CallSubscribe pattern callback done) w) pattern
    = (if _closed w then count_of w pattern
       else if decide (count_of w pattern = 0)
       then (if _client w is Some _ then 1 else 0)
       else S (count_of w pattern)).
Proof.
  unfold count_of.
  destruct (_closed w) eqn:Ho.
  - change (CallSubscribe pattern callback done) with (call pattern (Sub callback done)).
    rewrite (closed_rejects w pattern _ Ho). by rewrite app_nil_r.
  - destruct (_client w) as [h|] eqn:Hc.
    + destruct (subscribe_step w h pattern callback done Hc Ho) as (_ & _ & Hn & Hw).
      unfold count_of in *. rewrite Hn, Hw. case_decide as E; [|done].
      by rewrite E.
    + case_decide as E.
      * known w. unfold SubsCounter.include. rewrite E. simpl.
        by rewrite app_nil_r.
      * pose proof (count_add (_subs_counter w) pattern) as Hadd.
        known w. unfold SubsCounter.include.
        rewrite bool_decide_eq_true_2 by lia. simpl.
        destruct done, (TrieAscoltatore.well_formed pattern); simpl;
          by rewrite ?app_nil_r.
Qed.

Lemma unsubscribe_always (w : World) (pattern : string) (callback : nat)
    (done : option nat) :
  broker_subscribes pattern (after (CallUnsubscribe pattern callback done) w)
  = broker_subscribes pattern w
  ∧ count_of (after (CallUnsubscribe pattern callback done) w) pattern
    ≤ count_of w pattern.
Proof.
  unfold count_of, broker_subscribes.
  destruct (_closed w) eqn:Ho.
  - change (CallUnsubscribe pattern callback done) with (call pattern (Unsub callback done)).
    by rewrite (closed_rejects w pattern _ Ho).
  - pose proof (count_remove (_subs_counter w) pattern) as Hrem.
    assert (SubsCounter.count (SubsCounter.remove (_subs_counter w) pattern).2 pattern
            ≤ SubsCounter.count (_subs_counter w) pattern) as Hle by lia.
    clear Hrem. known w.
    destruct (SubsCounter.include _ pattern), _client0, done; simpl;
      rewrite ?tally_app; unfold tally; simpl; split; (lia || exact Hle).
Qed.

Lemma subscribes_follow_rises (pattern : string) (ops : list Op) (w : World) :
  broker_subscribes pattern (run (map (call pattern) ops) w)
  = broker_subscribes pattern w + transitions 0 1 pattern ops w.
Proof.
  revert w. induction ops as [|o ops IH]; intros w; [simpl; lia|].
  cbn [map run foldl transitions].
  fold (run (map (call pattern) ops) (after (call pattern o) w)).
  rewrite IH. destruct o as [cb d|cb d]; cbn [call].
  - destruct (subscribe_always w pattern cb d) as [Hw Hn].
    unfold broker_subscribes at 1. rewrite Hw, Hn, tally_app.
    fold (broker_subscribes pattern w).
    destruct (_closed w), (_client w); repeat case_decide; unfold tally; simpl;
      rewrite ?bool_decide_eq_true_2 by reflexivity; simpl; lia.
  - destruct (unsubscribe_always w pattern cb d) as [-> Hle].
    case_decide; lia.
Qed.

(** C1. Along every sequence of subscribe and unsubscribe calls on one
    pattern, on any adapter, the broker-level subscribe calls made for the
    pattern are as many as the 0→1 transitions of its count, whichever and
    however many callbacks call.  On an adapter that holds its transport
    handle, and when each unsubscribe finds the pattern counted, the
    broker-level unsubscribe calls are as many as the 1→0 transitions.
    A subscribe decides on the broker call from the count it finds, before
    it increments it. *)
Theorem broker_calls_follow_transitions (w : World) (pattern : string)
    (ops : list Op) :
  broker_subscribes pattern (run (map (call pattern) ops) w)
  = broker_subscribes pattern w + transitions 0 1 pattern ops w
  ∧ (∀ h, _client w = Some h → counted pattern ops w = true →
          broker_unsubscribes pattern (run (map (call pattern) ops) w)
          = broker_unsubscribes pattern w + transitions 1 0 pattern ops w)
  ∧ (∀ callback done,
       wire (after (CallSubscribe pattern callback done) w)
       = wire w ++ (if _closed w then []
                    else if decide (count_of w pattern = 0)
                    then (if _client w is Some _
                          then [TSubscribe (_subTopic pattern) 1%Z (AckSubscribe done)]
                          else [])
                    else [])).
Proof.
  split; [apply subscribes_follow_rises|]. split.
  - intros h Hclient Hcounted. destruct (_closed w) eqn:Ho.
    + destruct (closed_counts_nothing 1 0 w pattern ops Ho) as [-> ->]; [done|]. lia.
    + apply (open_calls_follow_transitions w h pattern ops Hclient Ho Hcounted).
  - intros callback done. apply subscribe_always.
Qed.

(** ** The counter and the dispatch engine *)

Lemma count_add_other (c : gmap string nat) (t p : string) :
  p ≠ t → SubsCounter.count (SubsCounter.add c t).2 p = SubsCounter.count c p.
Proof.
  intros Hne. unfold SubsCounter.add, SubsCounter.count. simpl.
  by rewrite lookup_insert_ne.
Qed.

Lemma count_remove_other (c : gmap string nat) (t p : string) :
  p ≠ t → SubsCounter.count (SubsCounter.remove c t).2 p = SubsCounter.count c p.
Proof.
  intros Hne. unfold SubsCounter.remove.
  destruct (SubsCounter.count c t) as [|[|n]]; simpl; [done| |];
    unfold SubsCounter.count.
  - by rewrite lookup_delete_ne.
  - by rewrite lookup_insert_ne.
Qed.

Lemma positive_remove (c : gmap string nat) (t : string) :
  map_Forall (λ _ n, 0 < n) c → map_Forall (λ _ n, 0 < n) (SubsCounter.remove c t).2.
Proof.
  intros Hc. unfold SubsCounter.remove.
  destruct (SubsCounter.count c t) as [|[|n]]; simpl; [done| |].
  - by apply map_Forall_delete.
  - apply map_Forall_insert_2; [lia|done].
Qed.

Lemma registered_subscribe (R : gset (string * nat)) (t p : string) (cb : nat) :
  (t, cb) ∉ R →
  size (filter (λ r : string * nat, r.1 = p) ({[ (t, cb) ]} ∪ R))
  = (if decide (p = t) then 1 else 0) + size (filter (λ r : string * nat, r.1 = p) R).
Proof.
  intros Hfresh.
  replace (filter (λ r : string * nat, r.1 = p) ({[ (t, cb) ]} ∪ R))
    with (filter (λ r : string * nat, r.1 = p) {[ (t, cb) ]}
          ∪ filter (λ r : string * nat, r.1 = p) R) by set_solver.
  destruct (decide (p = t)) as [->|Hne].
  - replace (filter (λ r : string * nat, r.1 = t) {[ (t, cb) ]})
      with ({[ (t, cb) ]} : gset (string * nat)) by set_solver.
    rewrite size_union by set_solver. by rewrite size_singleton.
  - replace (filter (λ r : string * nat, r.1 = p) {[ (t, cb) ]})
      with (∅ : gset (string * nat)) by set_solver.
    by rewrite (left_id_L ∅ (∪)).
Qed.

Lemma registered_unsubscribe (R : gset (string * nat)) (t p : string) (cb : nat) :
  (t, cb) ∈ R →
  size (filter (λ r : string * nat, r.1 = p) (R ∖ {[ (t, cb) ]}))
  = size (filter (λ r : string * nat, r.1 = p) R) - (if decide (p = t) then 1 else 0).
Proof.
  intros Hin.
  destruct (decide (p = t)) as [->|Hne].
  - replace (filter (λ r : string * nat, r.1 = t) (R ∖ {[ (t, cb) ]}))
      with (filter (λ r : string * nat, r.1 = t) R ∖ {[ (t, cb) ]}) by set_solver.
    rewrite size_difference by set_solver. by rewrite size_singleton.
  - replace (filter (λ r : string * nat, r.1 = p) (R ∖ {[ (t, cb) ]}))
      with (filter (λ r : string * nat, r.1 = p) R) by set_solver.
    lia.
Qed.

Lemma counts_positive_step (ev : Event) (w : World) :
  counts_positive w → counts_positive (after ev w).
Proof.
  unfold counts_positive. intros Hw.
  pose proof (positive_remove (_subs_counter w)) as Hrem.
  by_event ev w
    ltac:(apply (for_each_preserves (λ w', map_Forall (λ _ n, 0 < n) (_subs_counter w')));
          [ intros x w' H; straight w' | destruct w; auto ]);
    try (apply map_Forall_insert_2; [lia|done]);
    try (apply Hrem; exact Hw);
    try apply map_Forall_empty.
Qed.

Lemma counts_positive_always (evs : list Event) :
  counts_positive (run evs AWSIoTAscoltatore).
Proof.
  assert (∀ w, counts_positive w → counts_positive (run evs w)) as H.
  { induction evs as [|ev evs IH]; intros w Hw; [exact Hw|].
    apply IH, counts_positive_step, Hw. }
  apply H. apply map_Forall_empty.
Qed.

Lemma subscribe_bookkeeping (w : World) (topic : string) (callback : nat)
    (done : option nat) :
  TrieAscoltatore.well_formed topic = true →
  close_listeners (after (CallSubscribe topic callback done) w) = close_listeners w
  ∧ ((_subs_counter (after (CallSubscribe topic callback done) w) = _subs_counter w
      ∧ TrieAscoltatore.registrations (_ascoltatore (after (CallSubscribe topic callback done) w))
        = TrieAscoltatore.registrations (_ascoltatore w))
     ∨ (_subs_counter (after (CallSubscribe topic callback done) w)
        = (SubsCounter.add (_subs_counter w) topic).2
        ∧ TrieAscoltatore.registrations (_ascoltatore (after (CallSubscribe topic callback done) w))
          = {[ (topic, callback) ]} ∪ TrieAscoltatore.registrations (_ascoltatore w))).
Proof.
  intros Hwf. destruct w; exec. rewrite Hwf.
  repeat (inner_case; simpl in *; subst); auto.
Qed.

Lemma unsubscribe_bookkeeping (w : World) (topic : string) (callback : nat)
    (done : option nat) :
  close_listeners (after (CallUnsubscribe topic callback done) w) = close_listeners w
  ∧ ((_subs_counter (after (CallUnsubscribe topic callback done) w) = _subs_counter w
      ∧ TrieAscoltatore.registrations (_ascoltatore (after (CallUnsubscribe topic callback done) w))
        = TrieAscoltatore.registrations (_ascoltatore w))
     ∨ (_subs_counter (after (CallUnsubscribe topic callback done) w)
        = (SubsCounter.remove (_subs_counter w) topic).2
        ∧ TrieAscoltatore.registrations (_ascoltatore (after (CallUnsubscribe topic callback done) w))
          = TrieAscoltatore.registrations (_ascoltatore w) ∖ {[ (topic, callback) ]})).
Proof.
  destruct w; exec.
  destruct _closed0; simpl; [auto|].
  destruct (SubsCounter.include _ topic); simpl;
    repeat (inner_case; simpl in *; subst); auto.
Qed.

Lemma other_bookkeeping (ev : Event) (w : World) :
  close_listeners w = [] →
  match ev with
  | CallSubscribe _ _ _ | CallUnsubscribe _ _ _ | CallClose _ => True
  | _ => close_listeners (after ev w) = []
         ∧ _subs_counter (after ev w) = _subs_counter w
         ∧ TrieAscoltatore.registrations (_ascoltatore (after ev w))
           = TrieAscoltatore.registrations (_ascoltatore w)
  end.
Proof.
  intros Hl.
  by_event ev w ltac:(rewrite Hl; destruct w; simpl in *; auto).
Qed.

Lemma in_sync_step (ev : Event) (w : World) :
  (∀ p, count_of w p = live w p) → close_listeners w = [] →
  disciplined [ev] w = true →
  (∀ p, count_of (after ev w) p = live (after ev w) p)
  ∧ close_listeners (after ev w) = [].
Proof.
  intros Hs Hl Hd. cbn [disciplined] in Hd. rewrite andb_true_r in Hd.
  unfold count_of, live, TrieAscoltatore.registered in *.
  destruct ev as [topic cb d|topic cb d| | | | | | | |];
    try (match goal with
         | |- context [after ?ev w] =>
             destruct (other_bookkeeping ev w Hl) as (H1 & H2 & H3)
         end; rewrite H1, H2, H3; auto; fail).
  - apply andb_true_iff in Hd as [Hwf Hfresh]. apply bool_decide_eq_true in Hfresh.
    destruct (subscribe_bookkeeping w topic cb d Hwf) as (H1 & [[H2 H3]|[H2 H3]]);
      rewrite H1, H2, H3; split; auto.
    intros p. rewrite registered_subscribe by exact Hfresh. rewrite <- Hs.
    destruct (decide (p = topic)) as [->|Hne].
    + rewrite count_add. lia.
    + by rewrite count_add_other.
  - apply bool_decide_eq_true in Hd.
    destruct (unsubscribe_bookkeeping w topic cb d) as (H1 & [[H2 H3]|[H2 H3]]);
      rewrite H1, H2, H3; split; auto.
    intros p. rewrite registered_unsubscribe by exact Hd. rewrite <- Hs.
    destruct (decide (p = topic)) as [->|Hne].
    + rewrite count_remove. lia.
    + rewrite count_remove_other by done. lia.
  - simpl in Hd. done.
Qed.

(** C9. Along every run of a fresh adapter, a pattern is in the counter's
    mapping exactly when its count is positive.  Along a disciplined run
    (each subscribe registers a well-formed pattern with a callback not
    yet registered for it, each unsubscribe names a live registration,
    and [close] is not called) the count of every pattern is the number
    of registrations live in the dispatch engine for that pattern. *)
Theorem counter_matches_engine (evs : list Event) :
  (∀ p, 0 < count_of (run evs AWSIoTAscoltatore) p
        ↔ is_Some (_subs_counter (run evs AWSIoTAscoltatore) !! p))
  ∧ (disciplined evs AWSIoTAscoltatore = true →
     ∀ p, count_of (run evs AWSIoTAscoltatore) p = live (run evs AWSIoTAscoltatore) p).
Proof.
  split.
  - intros p. pose proof (counts_positive_always evs) as Hpos.
    unfold count_of, SubsCounter.count.
    destruct (_ !! p) as [n|] eqn:E; simpl.
    + apply Hpos in E. split; [eauto|intros _; exact E].
    + split; [lia|intros [? ?]; done].
  - assert (∀ w, (∀ p, count_of w p = live w p) → close_listeners w = [] →
                 disciplined evs w = true →
                 ∀ p, count_of (run evs w) p = live (run evs w) p) as H.
    { induction evs as [|ev evs IH]; intros w Hs Hl Hd; [exact Hs|].
      cbn [disciplined] in Hd. apply andb_true_iff in Hd as [Hhere Hrest].
      destruct (in_sync_step ev w Hs Hl) as [Hs' Hl'].
      { cbn [disciplined]. by rewrite Hhere. }
      exact (IH _ Hs' Hl' Hrest). }
    apply H; [|reflexivity].
    intros p. reflexivity.
Qed.

(** ** Resubscription *)

Lemma tally_delete {A} (p : A → bool) (l : list A) (i : nat) (a : A) :
  l !! i = Some a → tally p l = (if p a then 1 else 0) + tally p (delete i l).
Proof.
  revert i. induction l as [|x l IH]; intros [|i] Hi; try done.
  - injection Hi as ->. unfold tally. simpl. destruct (p a); simpl; lia.
  - specialize (IH i Hi). unfold tally in *. simpl.
    destruct (p x); simpl; lia.
Qed.

Lemma tally_none {A} (p : A → bool) (l : list A) (x : A) :
  tally p l = 0 → x ∈ l → p x = false.
Proof.
  induction l as [|y l IH]; intros Ht Hx; [by apply elem_of_nil in Hx|].
  unfold tally in *. simpl in Ht.
  destruct (p y) eqn:E; [done|].
  apply elem_of_cons in Hx as [->|Hx]; auto.
Qed.

Lemma tally_releases (j jn : nat) (ks : list string) :
  tally (owes j) (map (AckReconnect jn) ks) = if decide (jn = j) then length ks else 0.
Proof.
  induction ks as [|k ks IH]; [by case_decide|].
  unfold tally in *. simpl. case_decide.
  - rewrite bool_decide_eq_true_2 by done. simpl. by rewrite IH.
  - rewrite bool_decide_eq_false_2 by done. exact IH.
Qed.

Lemma new_join_elsewhere (l : list nat) (n j : nat) :
  j ≠ length l → default 0 ((l ++ [n]) !! j) = default 0 (l !! j).
Proof.
  intros Hne. destruct (decide (j < length l)).
  - by rewrite lookup_app_l.
  - rewrite !lookup_ge_None_2; [done|lia|rewrite length_app; simpl; lia].
Qed.

Lemma joins_sound_connect (w : World) :
  joins_sound w → joins_sound (after OnConnect w).
Proof.
  intros Hw j. destruct (Hw j) as [Hj Hr].
  destruct (Hw (length (joins w))) as [Hn Hrn].
  rewrite lookup_ge_None_2 in Hn, Hrn by lia. simpl in Hn.
  assert (EvReady (length (joins w)) ∉ emitted w) as Hfresh
    by (intros H; apply Hrn in H; done).
  assert (∀ n, EvReady j ∈ emitted w → (joins w ++ [n]) !! j = Some 0) as Hold.
  { intros n H. apply Hr in H. by apply lookup_app_l_Some. }
  unfold after. destruct (_client w) as [h|] eqn:Hc.
  - rewrite (on_connect_held w h Hc). set (ks := SubsCounter.keys _) in *.
    destruct w; simpl in *. rewrite tally_app, tally_releases. split.
    + case_decide as E.
      * subst j. rewrite list_lookup_middle by done. simpl. lia.
      * rewrite new_join_elsewhere by done. lia.
    + rewrite elem_of_app. intros [H|H]; [by apply Hold|].
      destruct ks; [|by apply elem_of_nil in H].
      apply list_elem_of_singleton in H. injection H as ->.
      by rewrite list_lookup_middle.
  - rewrite (on_connect_lost w Hc). set (ks := SubsCounter.keys _) in *.
    destruct ks as [|k ks]; destruct w; simpl in *.
    + split.
      * destruct (decide (j = length joins0)) as [->|E].
        -- rewrite list_lookup_middle by done. simpl. lia.
        -- rewrite new_join_elsewhere by done. lia.
      * rewrite elem_of_app. intros [H|H]; [by apply Hold|].
        apply list_elem_of_singleton in H. injection H as ->.
        by rewrite list_lookup_middle.
    + split.
      * destruct (decide (j = length joins0)) as [->|E].
        -- rewrite list_lookup_middle by done. simpl. lia.
        -- rewrite new_join_elsewhere by done. lia.
      * intros H. by apply Hold.
Qed.

Lemma joins_sound_ack (i : nat) (w : World) :
  joins_sound w → joins_sound (after (OnAck i) w).
Proof.
  intros Hw.
  destruct (pending w !! i) as [a|] eqn:Hi;
    [|destruct w; exec; simpl in Hi; rewrite Hi; exact Hw].
  intros j. destruct (Hw j) as [Hj Hr].
  rewrite (tally_delete (owes j) _ i a Hi) in Hj.
  destruct a as [j0 t|d|d|d];
    try (destruct w, d; exec; simpl in Hi; rewrite Hi; simpl in *; split; assumption).
  destruct (Hw j0) as [Hj0 Hr0].
  rewrite (tally_delete (owes j0) _ i _ Hi) in Hj0. simpl in Hj0, Hj.
  rewrite bool_decide_eq_true_2 in Hj0 by done.
  destruct (joins w !! j0) as [n|] eqn:Hn; simpl in Hj0; [|lia].
  assert (j0 < length (joins w)) as Hlt by (eapply lookup_lt_Some; eauto).
  destruct w; exec; simpl in *. rewrite Hi. simpl. rewrite Hn. simpl.
  destruct (decide (n = 1)) as [->|E1]; simpl.
  - destruct (decide (j = j0)) as [->|E].
    + rewrite list_lookup_insert_eq by done. simpl. split; [lia|done].
    + rewrite list_lookup_insert_ne by done.
      rewrite bool_decide_eq_false_2 in Hj by done. split; [exact Hj|].
      rewrite elem_of_app. intros [H|H]; [by apply Hr|].
      apply list_elem_of_singleton in H. congruence.
  - destruct (decide (j = j0)) as [->|E].
    + rewrite list_lookup_insert_eq by done. simpl.
      split; [lia|]. intros H. apply Hr0 in H. injection H as ->. lia.
    + rewrite list_lookup_insert_ne by done.
      rewrite bool_decide_eq_false_2 in Hj by done. split; [exact Hj|exact Hr].
Qed.

Lemma joins_sound_step (ev : Event) (w : World) :
  joins_sound w → joins_sound (after ev w).
Proof.
  intros Hw.
  destruct ev; try exact (joins_sound_connect w Hw); try exact (joins_sound_ack _ w Hw);
    try (unfold joins_sound in *; straight w;
         intros j; destruct (Hw j) as [Hj Hr];
         rewrite ?tally_app; unfold tally in *; simpl;
         rewrite ?Nat.add_0_r; (split; [assumption|]);
         rewrite ?elem_of_app, ?list_elem_of_singleton; intros; naive_solver).
  unfold after. rewrite on_close_unfold.
  apply (for_each_preserves joins_sound); [|destruct w; exact Hw].
  intros d w' Hw' j. destruct (Hw' j) as [Hj Hr].
  destruct w', d; exec; (split; [done|]);
    rewrite elem_of_app, list_elem_of_singleton; intros [?|?]; [auto|done|auto|done].
Qed.

Lemma joins_sound_always (evs : list Event) (w : World) :
  joins_sound w → joins_sound (run evs w).
Proof.
  revert w. induction evs as [|ev evs IH]; intros w Hw; [exact Hw|].
  apply IH, joins_sound_step, Hw.
Qed.

Lemma joins_sound_fresh : joins_sound AWSIoTAscoltatore.
Proof.
  intros j.
  change (pending AWSIoTAscoltatore) with (@nil Ack).
  change (emitted AWSIoTAscoltatore) with (@nil Emitted).
  split; [unfold tally; simpl; lia|]. intros H. by apply elem_of_nil in H.
Qed.

(** C2. On every transport connect event that finds the adapter holding
    its transport handle, the connect listener makes exactly the
    broker-level subscribe calls that replay the counter's [keys()] of
    that moment, one per pattern and each at quality-of-service 1, and
    owes their acknowledgments to one join; and whatever happens next,
    "ready" is not emitted for that join while one of those
    acknowledgments is still owed. *)
Theorem connect_replays_subscriptions (evs : list Event) (h : nat)
    (Hclient : _client (run evs AWSIoTAscoltatore) = Some h) :
  let w := run evs AWSIoTAscoltatore in
  let j := length (joins w) in
  (∃ w', step OnConnect w = Ok tt w')
  ∧ wire (after OnConnect w)
    = wire w ++ resubscription j (SubsCounter.keys (_subs_counter w))
  ∧ pending (after OnConnect w)
    = pending w ++ map (AckReconnect j) (SubsCounter.keys (_subs_counter w))
  ∧ (∀ (evs' : list Event) (t : string),
       EvReady j ∈ emitted (run evs' (after OnConnect w)) →
       AckReconnect j t ∉ pending (run evs' (after OnConnect w))).
Proof.
  intros w j. subst j.
  pose proof (on_connect_held w h Hclient) as Hstep.
  split; [eauto|]. unfold after at 1 2. rewrite Hstep.
  split; [destruct w; reflexivity|]. split; [destruct w; reflexivity|].
  intros evs' t Hready Hin.
  assert (joins_sound (run evs' (after OnConnect w))) as Hs.
  { apply joins_sound_always, joins_sound_step, joins_sound_always, joins_sound_fresh. }
  destruct (Hs (length (joins w))) as [Hj Hr].
  rewrite (Hr Hready) in Hj. simpl in Hj.
  assert (tally (owes (length (joins w))) (pending (run evs' (after OnConnect w))) = 0)
    as H0 by lia.
  pose proof (tally_none _ _ _ H0 Hin) as Hno. simpl in Hno.
  by apply bool_decide_eq_false in Hno.
Qed.


(** * Further properties of the adapter *)

(** ** Connections *)

(** l.54-85 *)
Lemma startConn_outcome (w : World) :
  _startConn w
  = match _client w with
    | Some h => Ok (Some h) w
    | None => Ok (Some (connections w))
                (set_connections (S (connections w)) (set_client (Some (connections w)) w))
    end.
Proof. destruct w as [[h|] ? ? ? ? ? ? ? ? ? ? ?]; reflexivity. Qed.

(** X1. [_startConn] always returns a handle; it opens a connection exactly
    when none is held, and doing it again changes nothing. *)
Theorem startConn_is_idempotent (w : World) :
  (∃ h, _startConn w = Ok (Some h) (world_of (_startConn w)))
  ∧ connections (world_of (_startConn w))
    = connections w + (if _client w is None then 1 else 0)
  ∧ world_of (_startConn (world_of (_startConn w))) = world_of (_startConn w).
Proof.
  rewrite !startConn_outcome.
  destruct w as [[h|] ? ? ? ? ? ? ? ? ? ? ?]; simpl;
    (split; [eauto|]); split; try reflexivity; lia.
Qed.

Lemma one_connection_step (ev : Event) (w : World) :
  connections (after ev w) = connections w
  ∧ (_client (after ev w) = _client w ∨ _client (after ev w) = None).
Proof.
  by_event ev w
    ltac:(apply (for_each_preserves
                   (λ w', connections w' = connections w
                          ∧ (_client w' = _client w ∨ _client w' = None)));
          [ intros x w' [H1 H2]; straight w'; auto | destruct w; auto ]);
    auto.
Qed.

(** X2. The adapter opens one connection, in its constructor, and never
    another: whatever calls and events follow, the connection count stays
    at 1 and the handle is the constructor's or absent. *)
Theorem one_connection_ever (evs : list Event) :
  connections (run evs AWSIoTAscoltatore) = 1
  ∧ (_client (run evs AWSIoTAscoltatore) = Some 0
     ∨ _client (run evs AWSIoTAscoltatore) = None).
Proof.
  assert (∀ w, connections w = 1 ∧ (_client w = Some 0 ∨ _client w = None) →
               connections (run evs w) = 1
               ∧ (_client (run evs w) = Some 0 ∨ _client (run evs w) = None)) as H.
  { induction evs as [|ev evs IH]; intros w Hw; [exact Hw|].
    apply IH. destruct Hw as [H1 H2].
    destruct (one_connection_step ev w) as [H3 [H4|H4]]; rewrite H3, H4; auto. }
  apply H. auto.
Qed.

(** ** The closed flag *)

Lemma not_closing_step (ev : Event) (w : World) :
  is_close ev = false →
  close_listeners w = [] ∧ _closed w = false ∧ EvClosed ∉ emitted w →
  close_listeners (after ev w) = [] ∧ _closed (after ev w) = false
  ∧ EvClosed ∉ emitted (after ev w).
Proof.
  intros Hev (Hl & Ho & He).
  by_event ev w ltac:(rewrite Hl; destruct w; simpl in *; auto);
    repeat split; auto;
    rewrite ?elem_of_app, ?list_elem_of_singleton, ?elem_of_nil; naive_solver.
Qed.

(** X3. An adapter on which [close] is never called is never closed: along
    every run without a close call the closed flag stays unset and
    "closed" is never emitted, whatever the transport does. *)
Theorem closed_only_by_close (evs : list Event)
    (Hnone : forallb (λ ev, negb (is_close ev)) evs = true) :
  _closed (run evs AWSIoTAscoltatore) = false
  ∧ EvClosed ∉ emitted (run evs AWSIoTAscoltatore).
Proof.
  assert (∀ w, close_listeners w = [] ∧ _closed w = false ∧ EvClosed ∉ emitted w →
               close_listeners (run evs w) = [] ∧ _closed (run evs w) = false
               ∧ EvClosed ∉ emitted (run evs w)) as H.
  { induction evs as [|ev evs IH]; intros w Hw; [exact Hw|].
    simpl in Hnone. apply andb_true_iff in Hnone as [Hev Hrest].
    apply (IH Hrest). apply not_closing_step; [|exact Hw].
    by destruct (is_close ev). }
  destruct (H AWSIoTAscoltatore) as (_ & H1 & H2); [|auto].
  repeat split; auto. intros Hin. by apply elem_of_nil in Hin.
Qed.

Lemma closed_without_handle_step (ev : Event) (w : World) :
  (_closed w = true → _client w = None) →
  _closed (after ev w) = true → _client (after ev w) = None.
Proof.
  intros Hw.
  by_event ev w
    ltac:(apply (for_each_preserves (λ w', _closed w' = true → _client w' = None));
          [ intros x w' H; straight w' | destruct w; auto ]);
    naive_solver.
Qed.

(** X4. A closed adapter holds no transport handle: the close listener
    discards the handle before it signals "closed", and nothing brings a
    handle back. *)
Theorem closed_holds_no_handle (evs : list Event)
    (Hclosed : _closed (run evs AWSIoTAscoltatore) = true) :
  _client (run evs AWSIoTAscoltatore) = None.
Proof.
  revert Hclosed.
  assert (∀ w, (_closed w = true → _client w = None) →
               _closed (run evs w) = true → _client (run evs w) = None) as H.
  { induction evs as [|ev evs IH]; intros w Hw; [exact Hw|].
    apply IH, closed_without_handle_step, Hw. }
  apply H. discriminate.
Qed.

(** ** Quality of service *)

Lemma resubscription_at_least_once (j : nat) (ks : list string) :
  Forall at_least_once (resubscription j ks).
Proof. induction ks; constructor; auto. reflexivity. Qed.

Lemma at_least_once_step (ev : Event) (w : World) :
  Forall at_least_once (wire w) → Forall at_least_once (wire (after ev w)).
Proof.
  intros Hw.
  pose proof resubscription_at_least_once as Hre.
  by_event ev w
    ltac:(apply (for_each_preserves (λ w', Forall at_least_once (wire w')));
          [ intros x w' H; straight w' | destruct w; auto ]);
    rewrite ?Forall_app, ?Forall_singleton; repeat split; auto; exact I.
Qed.

(** X5. Every broker-level subscribe the adapter ever makes, for a first
    subscriber or on a reconnect, asks for quality-of-service 1. *)
Theorem subscribes_at_least_once (evs : list Event) :
  Forall at_least_once (wire (run evs AWSIoTAscoltatore)).
Proof.
  assert (∀ w, Forall at_least_once (wire w) →
               Forall at_least_once (wire (run evs w))) as H.
  { induction evs as [|ev evs IH]; intros w Hw; [exact Hw|].
    apply IH, at_least_once_step, Hw. }
  apply H. constructor.
Qed.

(** ** Closing *)

Lemma close_listeners_outcome (ls : list (option nat)) (w : World) :
  close_listeners w = [] →
  for_each on_closed ls w = Ok tt (match ls with [] => w | _ => closed_by ls w end).
Proof.
  revert w. induction ls as [|d ls IH]; intros w Hl; [reflexivity|].
  change (for_each on_closed (d :: ls) w)
    with (mbind (λ _, for_each on_closed ls) (on_closed d) w).
  unfold mbind, M_bind.
  assert (on_closed d w = Ok tt (closed_by [d] w)) as Hd.
  { clear IH. destruct w, d; simpl in *; subst; unfold closed_by, on_closed; exec;
      rewrite ?app_nil_r; reflexivity. }
  rewrite Hd. rewrite IH by (destruct w; reflexivity).
  destruct ls as [|d' ls]; [reflexivity|].
  destruct w; unfold closed_by; simpl in *; subst.
  rewrite <- !app_assoc, app_nil_r. reflexivity.
Qed.

(** X6. The transport's close event runs the listener of every close call
    made since the last one, in call order: each emits "closed" and posts
    its [done], and together they discard the handle, empty the dispatch
    engine and set the closed flag.  The listeners are registered with
    [once]: a further close event does nothing. *)
Theorem close_event_runs_every_listener (w : World)
    (Hwaiting : close_listeners w ≠ []) :
  step OnClose w = Ok tt (closed_by (close_listeners w) w)
  ∧ step OnClose (after OnClose w) = Ok tt (after OnClose w).
Proof.
  assert (step OnClose w = Ok tt (closed_by (close_listeners w) w)) as H.
  { rewrite on_close_unfold.
    rewrite close_listeners_outcome by (destruct w; reflexivity).
    destruct w as [? ? ? ? ? ? ? [|d ls] ? ? ? ?]; [done|reflexivity]. }
  split; [exact H|].
  unfold after. rewrite H. cbn [world_of]. rewrite on_close_unfold.
  destruct w; reflexivity.
Qed.

(** X7. A close on an open adapter that holds its handle and has no close
    in progress, answered by the transport's close event: the transport
    is asked to end once, "closed" is emitted once, [done] is posted
    once, and the adapter is left closed with no handle, an empty counter
    and an empty dispatch engine. *)
Theorem close_completes (w : World) (h : nat) (done : option nat)
    (Hclient : _client w = Some h) (Hopen : _closed w = false)
    (Hidle : close_listeners w = []) :
  run [CallClose done; OnClose] w
  = closed_by [done]
      (set_wire (wire w ++ [TOnceClose done; TEnd])
        (set_subs_counter SubsCounter.clear w)).
Proof.
  destruct (close_then_close_event w h done Hclient Hopen) as (Hstep & _).
  unfold run; simpl. unfold after at 2. rewrite Hstep. simpl.
  unfold after. rewrite on_close_unfold.
  rewrite close_listeners_outcome by (destruct w; reflexivity).
  destruct w; simpl in *; subst. reflexivity.
Qed.

(** X8. [close] does not itself close the adapter, and it clears the
    counter at once.  Until the transport's close event, operations are
    not refused: a publish still reaches the transport, after the end
    request, and a subscribe to a pattern that was counted before the
    close is taken for a first one and calls the broker again. *)
Theorem closing_adapter_still_operates (w : World) (h : nat) (done : option nat)
    (Hclient : _client w = Some h) (Hopen : _closed w = false) :
  _closed (after (CallClose done) w) = false
  ∧ (∀ pattern, count_of (after (CallClose done) w) pattern = 0)
  ∧ (∀ pattern callback d,
       wire (run [CallClose done; CallSubscribe pattern callback d] w)
       = wire w ++ [TOnceClose done; TEnd;
                    TSubscribe (_subTopic pattern) 1%Z (AckSubscribe d)])
  ∧ (∀ topic message options d,
       wire (run [CallClose done; CallPublish topic message options d] w)
       = wire w ++ [TOnceClose done; TEnd;
                    TPublish (_pubTopic topic) message
                      (option_or_default options qos (JNum 1))
                      (option_or_default options retain (JBool false))
                      (AckPublish d)]).
Proof.
  destruct (close_then_close_event w h done Hclient Hopen) as (Hstep & _).
  assert (after (CallClose done) w
          = set_wire (wire w ++ [TOnceClose done; TEnd])
              (set_close_listeners (close_listeners w ++ [done])
                (set_subs_counter SubsCounter.clear w))) as Hw1
    by (unfold after; rewrite Hstep; reflexivity).
  assert (_client (after (CallClose done) w) = Some h) as Hc1
    by (rewrite Hw1; destruct w; exact Hclient).
  assert (_closed (after (CallClose done) w) = false) as Ho1
    by (rewrite Hw1; destruct w; exact Hopen).
  assert (∀ pattern, count_of (after (CallClose done) w) pattern = 0) as Hzero.
  { intros pattern. rewrite Hw1. destruct w; reflexivity. }
  split; [exact Ho1|]. split; [exact Hzero|]. split.
  - intros pattern callback d. unfold run; simpl.
    destruct (subscribe_step _ h pattern callback d Hc1 Ho1) as (_ & _ & _ & ->).
    rewrite Hzero. simpl. rewrite Hw1. destruct w; simpl.
    rewrite <- app_assoc. reflexivity.
  - intros topic message options d. unfold run; simpl.
    unfold after at 1. rewrite (publish_step _ h topic message options d Hc1 Ho1).
    simpl. rewrite Hw1. destruct w; simpl. rewrite <- app_assoc. reflexivity.
Qed.

(** ** Subscriptions without a handle *)

(** X9. A subscribe to a pattern that is already counted never reads the
    transport handle: on an open adapter it raises no TypeError even when
    the handle is gone, makes no transport call, counts the subscriber
    and posts [done] at once. *)
Theorem subscribe_counted_needs_no_handle (w : World) (topic : string)
    (callback : nat) (done : option nat)
    (Hopen : _closed w = false) (Hcounted : 0 < count_of w topic) :
  (∀ w', step (CallSubscribe topic callback done) w ≠ Throw TypeError w')
  ∧ wire (after (CallSubscribe topic callback done) w) = wire w
  ∧ pending (after (CallSubscribe topic callback done) w) = pending w
  ∧ tasks (after (CallSubscribe topic callback done) w) = tasks w ++ done_task done
  ∧ count_of (after (CallSubscribe topic callback done) w) topic = S (count_of w topic)
  ∧ _client (after (CallSubscribe topic callback done) w) = _client w.
Proof.
  unfold count_of in *.
  pose proof (count_add (_subs_counter w) topic) as Hadd.
  known w. unfold SubsCounter.include.
  rewrite bool_decide_eq_true_2 by exact Hcounted. simpl.
  destruct done, (TrieAscoltatore.well_formed topic); simpl;
    rewrite ?app_nil_r; repeat split; auto; discriminate.
Qed.

(** X10. An unsubscribe that takes the last count of a pattern on an open
    adapter whose handle is gone raises a TypeError only after it has
    removed the registration and the count: the subscription is gone
    locally, no broker call is made and [done] is never posted. *)
Theorem unsubscribe_last_without_handle (w : World) (topic : string)
    (callback : nat) (done : option nat)
    (Hlost : _client w = None) (Hopen : _closed w = false)
    (Hlast : count_of w topic ≤ 1) :
  step (CallUnsubscribe topic callback done) w
  = Throw TypeError
      (set_subs_counter (SubsCounter.remove (_subs_counter w) topic).2
        (set_ascoltatore (TrieAscoltatore.unsubscribe topic callback (_ascoltatore w)) w))
  ∧ count_of (after (CallUnsubscribe topic callback done) w) topic = 0.
Proof.
  unfold count_of in *.
  pose proof (count_remove (_subs_counter w) topic) as Hrem.
  assert (SubsCounter.count (SubsCounter.remove (_subs_counter w) topic).2 topic = 0)
    as H0 by lia.
  clear Hrem. known w. unfold SubsCounter.include. rewrite H0. simpl. auto.
Qed.

(** ** Subscribing and unsubscribing on a held handle *)

Lemma subscribe_held_bookkeeping (w : World) (h : nat) (topic : string)
    (callback : nat) (done : option nat) :
  _client w = Some h → _closed w = false → TrieAscoltatore.well_formed topic = true →
  _subs_counter (after (CallSubscribe topic callback done) w)
  = (SubsCounter.add (_subs_counter w) topic).2
  ∧ TrieAscoltatore.registrations (_ascoltatore (after (CallSubscribe topic callback done) w))
    = {[ (topic, callback) ]} ∪ TrieAscoltatore.registrations (_ascoltatore w).
Proof.
  intros Hc Ho Hwf. known w. rewrite Hwf.
  destruct (SubsCounter.include _ topic), done; simpl; auto.
Qed.

Lemma unsubscribe_held_bookkeeping (w : World) (h : nat) (topic : string)
    (callback : nat) (done : option nat) :
  _client w = Some h → _closed w = false →
  _subs_counter (after (CallUnsubscribe topic callback done) w)
  = (SubsCounter.remove (_subs_counter w) topic).2
  ∧ TrieAscoltatore.registrations (_ascoltatore (after (CallUnsubscribe topic callback done) w))
    = TrieAscoltatore.registrations (_ascoltatore w) ∖ {[ (topic, callback) ]}.
Proof.
  intros Hc Ho. known w.
  destruct (SubsCounter.include _ topic), done; simpl; auto.
Qed.

Lemma add_then_remove (c : gmap string nat) (t : string) :
  map_Forall (λ _ n, 0 < n) c →
  (SubsCounter.remove (SubsCounter.add c t).2 t).2 = c.
Proof.
  intros Hpos. unfold SubsCounter.remove. rewrite count_add.
  unfold SubsCounter.add, SubsCounter.count. simpl.
  destruct (c !! t) as [n|] eqn:E; simpl.
  - pose proof (Hpos t n E) as Hn. simpl in Hn.
    destruct n as [|n]; [lia|]. simpl.
    rewrite insert_insert_eq. by apply insert_id.
  - rewrite delete_insert_eq. by apply delete_id.
Qed.

(** X11. Subscribe then unsubscribe is a round trip: on an open adapter
    that holds its handle, a well-formed pattern subscribed with a
    callback not yet registered for it and unsubscribed again leaves the
    counter and the dispatch engine's registrations exactly as they
    were. *)
Theorem subscribe_unsubscribe_round_trip (evs : list Event) (h : nat)
    (topic : string) (callback : nat) (done1 done2 : option nat)
    (Hclient : _client (run evs AWSIoTAscoltatore) = Some h)
    (Hopen : _closed (run evs AWSIoTAscoltatore) = false)
    (Hpattern : TrieAscoltatore.well_formed topic = true)
    (Hfresh : (topic, callback)
              ∉ TrieAscoltatore.registrations (_ascoltatore (run evs AWSIoTAscoltatore))) :
  _subs_counter (run [CallSubscribe topic callback done1;
                      CallUnsubscribe topic callback done2] (run evs AWSIoTAscoltatore))
  = _subs_counter (run evs AWSIoTAscoltatore)
  ∧ TrieAscoltatore.registrations
      (_ascoltatore (run [CallSubscribe topic callback done1;
                          CallUnsubscribe topic callback done2] (run evs AWSIoTAscoltatore)))
    = TrieAscoltatore.registrations (_ascoltatore (run evs AWSIoTAscoltatore)).
Proof.
  pose proof (counts_positive_always evs) as Hpos.
  set (w := run evs AWSIoTAscoltatore) in *. unfold run; simpl.
  destruct (subscribe_step w h topic callback done1 Hclient Hopen) as (Hc1 & Ho1 & _).
  destruct (subscribe_held_bookkeeping w h topic callback done1 Hclient Hopen Hpattern)
    as [Hs1 Hr1].
  destruct (unsubscribe_held_bookkeeping _ h topic callback done2 Hc1 Ho1) as [-> ->].
  rewrite Hs1, Hr1. split.
  - apply add_then_remove, Hpos.
  - set_solver.
Qed.

(** X12. The counter does not know who unsubscribes.  On an open adapter
    that holds its handle, an unsubscribe naming a callback that is not
    registered for a pattern counted once takes that count: the broker
    is told to unsubscribe while the other callback stays registered in
    the dispatch engine. *)
Theorem foreign_unsubscribe_takes_the_count (w : World) (h : nat) (topic : string)
    (callback other : nat) (done : option nat)
    (Hclient : _client w = Some h) (Hopen : _closed w = false)
    (Honce : count_of w topic = 1)
    (Hlive : (topic, callback) ∈ TrieAscoltatore.registrations (_ascoltatore w))
    (Hother : other ≠ callback) :
  count_of (after (CallUnsubscribe topic other done) w) topic = 0
  ∧ wire (after (CallUnsubscribe topic other done) w)
    = wire w ++ [TUnsubscribe (_subTopic topic) (AckUnsubscribe done)]
  ∧ (topic, callback)
    ∈ TrieAscoltatore.registrations (_ascoltatore (after (CallUnsubscribe topic other done) w)).
Proof.
  destruct (unsubscribe_step w h topic other done Hclient Hopen) as (_ & _ & -> & ->).
  destruct (unsubscribe_held_bookkeeping w h topic other done Hclient Hopen) as [_ ->].
  rewrite Honce. simpl. repeat split. set_solver.
Qed.

(** ** Completion callbacks *)

Lemma ack_at_end (w : World) (acks : list Ack) (a : Ack) :
  pending w = acks ++ [a] →
  step (OnAck (length acks)) w = acknowledge a (set_pending acks w).
Proof.
  intros Hp. unfold step, bind, gets, mbind, M_bind.
  rewrite Hp, list_lookup_middle by reflexivity.
  unfold modify. rewrite <- (app_nil_r acks) at 3.
  rewrite (delete_middle acks []), app_nil_r. reflexivity.
Qed.

(** X13. The [done] of a subscribe that calls the broker is posted by the
    acknowledgment, not by the call: the call leaves the queue as it was
    and the acknowledgment owed; the acknowledgment posts [done] without
    running it. *)
Theorem subscribe_done_follows_ack (w : World) (h : nat) (topic : string)
    (callback : nat) (done : option nat)
    (Hclient : _client w = Some h) (Hopen : _closed w = false)
    (Hfirst : count_of w topic = 0) :
  tasks (after (CallSubscribe topic callback done) w) = tasks w
  ∧ pending (after (CallSubscribe topic callback done) w) = pending w ++ [AckSubscribe done]
  ∧ tasks (run [CallSubscribe topic callback done; OnAck (length (pending w))] w)
    = tasks w ++ done_task done
  ∧ invoked (run [CallSubscribe topic callback done; OnAck (length (pending w))] w)
    = invoked w.
Proof.
  unfold count_of in Hfirst.
  assert (tasks (after (CallSubscribe topic callback done) w) = tasks w
          ∧ pending (after (CallSubscribe topic callback done) w)
            = pending w ++ [AckSubscribe done]) as [Ht Hp].
  { known w. unfold SubsCounter.include. rewrite Hfirst. simpl.
    destruct (TrieAscoltatore.well_formed topic); simpl; auto. }
  split; [exact Ht|]. split; [exact Hp|].
  pose proof (callbacks_wait (CallSubscribe topic callback done) w) as Hi.
  unfold run; simpl. unfold after at 1 3.
  rewrite (ack_at_end _ (pending w) (AckSubscribe done) Hp).
  set (w1 := after _ w) in *. destruct w1, done; simpl in *; subst;
    rewrite ?app_nil_r; auto.
Qed.

(** X14. The [done] of an unsubscribe, on an open adapter that holds its
    handle: while other subscribers of the pattern remain it is posted by
    the call, with no transport call; for the last subscriber the call
    posts nothing and the broker's acknowledgment posts it. *)
Theorem unsubscribe_done (w : World) (h : nat) (topic : string)
    (callback : nat) (done : option nat)
    (Hclient : _client w = Some h) (Hopen : _closed w = false) :
  (1 < count_of w topic →
   tasks (after (CallUnsubscribe topic callback done) w) = tasks w ++ done_task done
   ∧ wire (after (CallUnsubscribe topic callback done) w) = wire w
   ∧ pending (after (CallUnsubscribe topic callback done) w) = pending w)
  ∧ (count_of w topic ≤ 1 →
     tasks (after (CallUnsubscribe topic callback done) w) = tasks w
     ∧ pending (after (CallUnsubscribe topic callback done) w)
       = pending w ++ [AckUnsubscribe done]
     ∧ tasks (run [CallUnsubscribe topic callback done; OnAck (length (pending w))] w)
       = tasks w ++ done_task done).
Proof.
  unfold count_of.
  pose proof (count_remove (_subs_counter w) topic) as Hrem.
  split; intros Hn.
  - assert (0 < SubsCounter.count (SubsCounter.remove (_subs_counter w) topic).2 topic)
      as Hpos by lia.
    clear Hrem. known w. unfold SubsCounter.include.
    rewrite bool_decide_eq_true_2 by exact Hpos. simpl.
    destruct done; simpl; rewrite ?app_nil_r; auto.
  - assert (SubsCounter.count (SubsCounter.remove (_subs_counter w) topic).2 topic = 0)
      as H0 by lia.
    clear Hrem.
    assert (tasks (after (CallUnsubscribe topic callback done) w) = tasks w
            ∧ pending (after (CallUnsubscribe topic callback done) w)
              = pending w ++ [AckUnsubscribe done]) as [Ht Hp].
    { known w. unfold SubsCounter.include. rewrite H0. simpl. auto. }
    split; [exact Ht|]. split; [exact Hp|].
    unfold run; simpl. unfold after at 1.
    rewrite (ack_at_end _ (pending w) (AckUnsubscribe done) Hp).
    set (w1 := after _ w) in *. destruct w1, done; simpl in *; subst;
      rewrite ?app_nil_r; auto.
Qed.

(** ** Readiness *)

Lemma release_step (w : World) (acks rest : list Ack) (j n : nat) (k : string) :
  pending w = acks ++ AckReconnect j k :: rest →
  joins w !! j = Some (S n) →
  after (OnAck (length acks)) w
  = set_emitted (emitted w ++ (if decide (n = 0) then [EvReady j] else []))
      (set_joins (<[j := n]> (joins w)) (set_pending (acks ++ rest) w)).
Proof.
  intros Hp Hj. unfold after, step, bind, gets, mbind, M_bind.
  rewrite Hp, list_lookup_middle by reflexivity.
  unfold modify. rewrite delete_middle.
  unfold acknowledge, release, bind, gets, modify, mbind, M_bind.
  replace (joins (set_pending (acks ++ rest) w)) with (joins w) by (destruct w; reflexivity).
  rewrite Hj. simpl.
  destruct n as [|n]; simpl; destruct w; simpl; rewrite ?app_nil_r; reflexivity.
Qed.

Lemma releases_in_turn (i : nat) :
  ∀ (ks : list string) (w : World) (acks : list Ack) (j : nat),
    pending w = acks ++ map (AckReconnect j) ks →
    joins w !! j = Some (length ks) →
    i ≤ length ks →
    pending (run (replicate i (OnAck (length acks))) w)
    = acks ++ map (AckReconnect j) (drop i ks)
    ∧ joins (run (replicate i (OnAck (length acks))) w) !! j = Some (length ks - i)
    ∧ emitted (run (replicate i (OnAck (length acks))) w)
      = emitted w ++ (if decide (0 < i ∧ i = length ks) then [EvReady j] else []).
Proof.
  induction i as [|i IH]; intros ks w acks j Hp Hj Hi.
  - simpl. rewrite drop_0, Nat.sub_0_r, app_nil_r. auto.
  - destruct ks as [|k ks]; [simpl in Hi; lia|]. simpl in Hp, Hj, Hi.
    assert (j < length (joins w)) as Hlt by (eapply lookup_lt_Some; eauto).
    pose proof (release_step w acks _ j (length ks) k Hp Hj) as Hstep.
    cbn [replicate run foldl].
    fold (run (replicate i (OnAck (length acks))) (after (OnAck (length acks)) w)).
    rewrite Hstep.
    edestruct (IH ks) as (H1 & H2 & H3); [| | |rewrite H1, H2, H3].
    + destruct w; simpl. reflexivity.
    + destruct w; simpl in *. by rewrite list_lookup_insert_eq.
    + lia.
    + simpl. split; [reflexivity|]. split; [reflexivity|].
      destruct w; simpl. rewrite <- app_assoc.
      repeat case_decide; simpl; try reflexivity; lia.
Qed.

(** X15. A connect event that finds the handle held and at least one
    counted pattern emits no "ready" itself; when the transport
    acknowledges the replayed subscribes in turn, "ready" is emitted
    exactly once, by the last acknowledgment, and nothing of the replay
    stays owed. *)
Theorem ready_follows_last_ack (w : World) (h : nat)
    (Hclient : _client w = Some h)
    (Hsome : SubsCounter.keys (_subs_counter w) ≠ []) :
  (∀ i, i < length (SubsCounter.keys (_subs_counter w)) →
        emitted (run (OnConnect :: replicate i (OnAck (length (pending w)))) w)
        = emitted w)
  ∧ emitted (run (OnConnect :: replicate (length (SubsCounter.keys (_subs_counter w)))
                                (OnAck (length (pending w)))) w)
    = emitted w ++ [EvReady (length (joins w))]
  ∧ pending (run (OnConnect :: replicate (length (SubsCounter.keys (_subs_counter w)))
                                 (OnAck (length (pending w)))) w)
    = pending w.
Proof.
  pose proof (on_connect_held w h Hclient) as Hstep.
  set (ks := SubsCounter.keys (_subs_counter w)) in *.
  set (j := length (joins w)) in *.
  assert (pending (after OnConnect w) = pending w ++ map (AckReconnect j) ks) as Hp
    by (unfold after; rewrite Hstep; destruct w; reflexivity).
  assert (joins (after OnConnect w) !! j = Some (length ks)) as Hj.
  { unfold after. rewrite Hstep. destruct w; simpl. by apply list_lookup_middle. }
  assert (emitted (after OnConnect w) = emitted w) as He.
  { unfold after. rewrite Hstep. destruct w, ks; [done|]. simpl. by rewrite app_nil_r. }
  split; [|split].
  - intros i Hi. cbn [run foldl].
    fold (run (replicate i (OnAck (length (pending w)))) (after OnConnect w)).
    destruct (releases_in_turn i ks _ _ j Hp Hj) as (_ & _ & ->); [lia|].
    rewrite He. case_decide; [lia|]. by rewrite app_nil_r.
  - cbn [run foldl].
    fold (run (replicate (length ks) (OnAck (length (pending w)))) (after OnConnect w)).
    destruct (releases_in_turn (length ks) ks _ _ j Hp Hj) as (_ & _ & ->); [lia|].
    rewrite He. rewrite decide_True; [reflexivity|].
    split; [|reflexivity]. destruct ks; [done|simpl; lia].
  - cbn [run foldl].
    fold (run (replicate (length ks) (OnAck (length (pending w)))) (after OnConnect w)).
    destruct (releases_in_turn (length ks) ks _ _ j Hp Hj) as (-> & _); [lia|].
    by rewrite drop_all, app_nil_r.
Qed.

(** ** The constructor's options *)

(** X16. The keepalive the constructor hands to the transport factory is
    always a truthy value: the caller's own when it is truthy, 3000 when
    the options are absent, leave it out, or give a falsy one; a
    keepalive of 0 is never passed on. *)
Theorem keepalive_is_always_set (opts : option Options) :
  ∃ v, keepalive (constructor_options opts) = Some v
       ∧ truthy v = true
       ∧ v ≠ JNum 0
       ∧ (∀ o u, opts = Some o → keepalive o = Some u → truthy u = true → v = u)
       ∧ (∀ o u, opts = Some o → keepalive o = Some u → truthy u = false → v = JNum 3000)
       ∧ (opts ≫= keepalive = None → v = JNum 3000).
Proof.
  destruct opts as [[[u|] f]|]; simpl.
  - destruct (truthy u) eqn:E; eexists; (split; [reflexivity|]).
    + split; [exact E|]. split; [intros ->; discriminate|].
      split; [|split].
      * intros o u' [= <-] [= <-] _. reflexivity.
      * intros o u' [= <-] [= <-] E'. congruence.
      * discriminate.
    + split; [reflexivity|]. split; [discriminate|].
      split; [|split]; [|reflexivity..].
      intros o u' [= <-] [= <-] E'. congruence.
  - eexists; (split; [reflexivity|]). split; [reflexivity|]. split; [discriminate|].
    split; [|split]; [|reflexivity..].
    intros o u' [= <-] [=].
  - eexists; (split; [reflexivity|]). split; [reflexivity|]. split; [discriminate|].
    split; [|split]; [|reflexivity..].
    intros o u' [=].
Qed.

End Properties.


(** * The properties on the scenarios *)

#[local] Existing Instance plain_naming.

(** C1 on a run: three callbacks on one pattern, one broker subscribe and
    one broker unsubscribe. *)
Lemma broker_calls_follow_transitions_witness :
  broker_subscribes temperature (run (map (call temperature) shared_pattern) AWSIoTAscoltatore)
  = broker_subscribes temperature AWSIoTAscoltatore
    + transitions 0 1 temperature shared_pattern AWSIoTAscoltatore
  ∧ broker_unsubscribes temperature (run (map (call temperature) shared_pattern) AWSIoTAscoltatore)
    = broker_unsubscribes temperature AWSIoTAscoltatore
      + transitions 1 0 temperature shared_pattern AWSIoTAscoltatore.
Proof.
  destruct (broker_calls_follow_transitions AWSIoTAscoltatore temperature shared_pattern)
    as (H1 & H2 & _).
  split; [exact H1|].
  apply (H2 0); [reflexivity|]. vm_compute. reflexivity.
Defined.

(** C1 fails as stated.  A second unsubscribe finds the count at 0: no
    transition, and a broker-level unsubscribe all the same.  And once the
    handle is gone, the count falls from 1 to 0 with no broker call. *)
Lemma unsubscribe_without_transition :
  broker_unsubscribes temperature
    (run (map (call temperature) unsubscribed_twice) AWSIoTAscoltatore) = 2
  ∧ transitions 1 0 temperature unsubscribed_twice AWSIoTAscoltatore = 1
  ∧ broker_unsubscribes temperature
      (run (map (call temperature) [Unsub 1 None]) (run subscribed_then_error AWSIoTAscoltatore))
    = 0
  ∧ transitions 1 0 temperature [Unsub 1 None] (run subscribed_then_error AWSIoTAscoltatore)
    = 1.
Proof. vm_compute. repeat split. Qed.

(** C2 on a run: a reconnect after two subscriptions. *)
Lemma connect_replays_subscriptions_witness :
  let w := run [CallSubscribe temperature 1 None; CallSubscribe "a/#" 2 None]
             AWSIoTAscoltatore in
  let j := length (joins w) in
  (∃ w', step OnConnect w = Ok tt w')
  ∧ wire (after OnConnect w)
    = wire w ++ resubscription j (SubsCounter.keys (_subs_counter w))
  ∧ pending (after OnConnect w)
    = pending w ++ map (AckReconnect j) (SubsCounter.keys (_subs_counter w))
  ∧ (∀ (evs' : list Event) (t : string),
       EvReady j ∈ emitted (run evs' (after OnConnect w)) →
       AckReconnect j t ∉ pending (run evs' (after OnConnect w))).
Proof.
  apply (connect_replays_subscriptions
           [CallSubscribe temperature 1 None; CallSubscribe "a/#" 2 None] 0).
  vm_compute. reflexivity.
Defined.

(** C2 fails as stated.  The transport object outlives the handle; a
    connect event after an error event finds a counted pattern and no
    handle: the listener raises a TypeError and replays nothing. *)
Lemma connect_without_handle_replays_nothing :
  let w := run subscribed_then_error AWSIoTAscoltatore in
  SubsCounter.keys (_subs_counter w) = [temperature]
  ∧ step OnConnect w = Throw TypeError (set_joins [1] w)
  ∧ wire (after OnConnect w) = wire w
  ∧ wire (after OnConnect w)
    ≠ wire w ++ resubscription (length (joins w)) (SubsCounter.keys (_subs_counter w)).
Proof. vm_compute. repeat split. discriminate. Qed.

(** C3 on a run: no options at all, and options that carry only retain. *)
Lemma publish_applies_defaults_witness :
  wire (after (CallPublish "a/b" "hello"
                 (OptionsObject {| qos := None; retain := Some (JBool true) |}) None)
          AWSIoTAscoltatore)
  = [TPublish "a/b" "hello" (JNum 1) (JBool true) (AckPublish None)].
Proof.
  unfold after.
  rewrite (publish_applies_defaults AWSIoTAscoltatore 0 "a/b" "hello"
             (OptionsObject {| qos := None; retain := Some (JBool true) |}) None
             eq_refl eq_refl).
  reflexivity.
Defined.

(** C5 at a publish with a callback: after the acknowledgment the callback
    has run and the queue is empty. *)
Lemma publish_done_runs_in_ack_stack_witness :
  invoked (run [CallPublish "a/b" "hello" OptionsFalsy (Some 7); OnAck 0] AWSIoTAscoltatore)
  = [7]
  ∧ tasks (run [CallPublish "a/b" "hello" OptionsFalsy (Some 7); OnAck 0] AWSIoTAscoltatore)
    = [].
Proof.
  destruct (publish_done_runs_in_ack_stack AWSIoTAscoltatore 0 "a/b" "hello" OptionsFalsy 7
              eq_refl eq_refl) as (_ & H1 & H2 & _).
  split; [exact H1 | exact H2].
Defined.




(** C9 on a run: of two callbacks on one pattern one is left, counted once
    and registered once. *)
Lemma counter_matches_engine_witness :
  disciplined two_subscribers AWSIoTAscoltatore = true
  ∧ count_of (run two_subscribers AWSIoTAscoltatore) temperature = 1
  ∧ live (run two_subscribers AWSIoTAscoltatore) temperature = 1.
Proof.
  assert (disciplined two_subscribers AWSIoTAscoltatore = true) as Hd
    by (vm_compute; reflexivity).
  split; [exact Hd|].
  rewrite <- (proj2 (counter_matches_engine two_subscribers) Hd temperature).
  vm_compute. split; reflexivity.
Defined.

(** C9 fails as stated.  The same callback subscribed twice to the same
    pattern is counted twice and registered once. *)
Lemma same_callback_twice_out_of_sync :
  count_of (run subscribed_twice AWSIoTAscoltatore) temperature = 2
  ∧ live (run subscribed_twice AWSIoTAscoltatore) temperature = 1.
Proof. vm_compute. split; reflexivity. Qed.

(** C10 on a run. *)
Lemma operations_after_error_witness :
  let w' := run (OnError "reset" :: [OnConnect; NextTick]) AWSIoTAscoltatore in
  _client w' = None
  ∧ connections w' = connections AWSIoTAscoltatore
  ∧ (∀ topic callback done,
       count_of w' topic = 0 →
       step (CallSubscribe topic callback done) w' = Throw TypeError w')
  ∧ (∀ topic message options done,
       step (CallPublish topic message options done) w' = Throw TypeError w')
  ∧ (∀ done,
       step (CallClose done) w'
       = Throw TypeError (set_subs_counter SubsCounter.clear w')).
Proof.
  apply (operations_after_error AWSIoTAscoltatore "reset" [OnConnect; NextTick]);
    reflexivity.
Defined.

(** C10 fails as stated.  The error event deletes the handle while a close
    is in progress; the transport's close event then closes the adapter,
    and the operations meet the "closed" guard before the absent handle. *)
Lemma closed_after_error_is_closed_error :
  _client (run [CallClose None] AWSIoTAscoltatore) = Some 0
  ∧ _client (run [CallClose None; OnError "reset"] AWSIoTAscoltatore) = None
  ∧ step (CallPublish "a/b" "hello" OptionsFalsy None)
      (run error_while_closing AWSIoTAscoltatore)
    = Throw ClosedError (run error_while_closing AWSIoTAscoltatore)
  ∧ step (CallSubscribe temperature 1 None) (run error_while_closing AWSIoTAscoltatore)
    = Throw ClosedError (run error_while_closing AWSIoTAscoltatore)
  ∧ step (CallClose None) (run error_while_closing AWSIoTAscoltatore)
    = Ok tt (run error_while_closing AWSIoTAscoltatore).
Proof. vm_compute. repeat split. Qed.

(** * The further properties on the scenarios *)

(** X3 on a run: transport close events without a close call. *)
Lemma closed_only_by_close_witness :
  _closed (run never_closed AWSIoTAscoltatore) = false
  ∧ EvClosed ∉ emitted (run never_closed AWSIoTAscoltatore).
Proof.
  apply (closed_only_by_close never_closed).
  vm_compute. reflexivity.
Defined.

(** X4 on a run: a close and its close event. *)
Lemma closed_holds_no_handle_witness :
  _client (run [CallClose None; OnClose] AWSIoTAscoltatore) = None.
Proof.
  apply (closed_holds_no_handle [CallClose None; OnClose]).
  vm_compute. reflexivity.
Defined.

(** X6 on a run: two closes, one close event. *)
Lemma close_event_runs_every_listener_witness :
  emitted (after OnClose (run closed_twice AWSIoTAscoltatore)) = [EvClosed; EvClosed]
  ∧ tasks (after OnClose (run closed_twice AWSIoTAscoltatore)) = [TaskDone 1; TaskDone 2]
  ∧ step OnClose (after OnClose (run closed_twice AWSIoTAscoltatore))
    = Ok tt (after OnClose (run closed_twice AWSIoTAscoltatore)).
Proof.
  assert (close_listeners (run closed_twice AWSIoTAscoltatore) ≠ []) as Hwaiting
    by (vm_compute; discriminate).
  destruct (close_event_runs_every_listener (run closed_twice AWSIoTAscoltatore) Hwaiting)
    as [H1 H2].
  split; [|split; [|exact H2]]; unfold after; rewrite H1; vm_compute; reflexivity.
Defined.

(** X7 on a run. *)
Lemma close_completes_witness :
  run [CallClose (Some 4); OnClose] AWSIoTAscoltatore
  = closed_by [Some 4]
      (set_wire (wire AWSIoTAscoltatore ++ [TOnceClose (Some 4); TEnd])
        (set_subs_counter SubsCounter.clear AWSIoTAscoltatore)).
Proof.
  apply (close_completes AWSIoTAscoltatore 0 (Some 4)); reflexivity.
Defined.

(** X8 on a run: a pattern counted before the close is subscribed again
    while the adapter is closing. *)
Lemma closing_adapter_still_operates_witness :
  count_of (run [CallSubscribe temperature 1 None] AWSIoTAscoltatore) temperature = 1
  ∧ wire (run [CallClose None; CallSubscribe temperature 2 None]
            (run [CallSubscribe temperature 1 None] AWSIoTAscoltatore))
    = [TSubscribe temperature 1%Z (AckSubscribe None); TOnceClose None; TEnd;
       TSubscribe temperature 1%Z (AckSubscribe None)].
Proof.
  split; [vm_compute; reflexivity|].
  destruct (closing_adapter_still_operates
              (run [CallSubscribe temperature 1 None] AWSIoTAscoltatore) 0 None
              eq_refl eq_refl) as (_ & _ & H & _).
  rewrite H. vm_compute. reflexivity.
Defined.

(** X9 on a run: the handle is gone and the pattern is counted. *)
Lemma subscribe_counted_needs_no_handle_witness :
  _client (run subscribed_then_error AWSIoTAscoltatore) = None
  ∧ wire (after (CallSubscribe temperature 2 (Some 9)) (run subscribed_then_error AWSIoTAscoltatore))
    = wire (run subscribed_then_error AWSIoTAscoltatore)
  ∧ tasks (after (CallSubscribe temperature 2 (Some 9)) (run subscribed_then_error AWSIoTAscoltatore))
    = tasks (run subscribed_then_error AWSIoTAscoltatore) ++ [TaskDone 9].
Proof.
  split; [vm_compute; reflexivity|].
  assert (0 < count_of (run subscribed_then_error AWSIoTAscoltatore) temperature) as Hcounted
    by (vm_compute; lia).
  destruct (subscribe_counted_needs_no_handle
              (run subscribed_then_error AWSIoTAscoltatore) temperature 2 (Some 9)
              eq_refl Hcounted) as (_ & H1 & _ & H2 & _).
  split; [exact H1|exact H2].
Defined.

(** X10 on a run: the last subscriber leaves after the handle is gone. *)
Lemma unsubscribe_last_without_handle_witness :
  (∃ w', step (CallUnsubscribe temperature 1 (Some 9)) (run subscribed_then_error AWSIoTAscoltatore)
         = Throw TypeError w')
  ∧ count_of (after (CallUnsubscribe temperature 1 (Some 9))
                (run subscribed_then_error AWSIoTAscoltatore)) temperature = 0.
Proof.
  assert (count_of (run subscribed_then_error AWSIoTAscoltatore) temperature ≤ 1) as Hlast
    by (vm_compute; lia).
  destruct (unsubscribe_last_without_handle
              (run subscribed_then_error AWSIoTAscoltatore) temperature 1 (Some 9)
              eq_refl eq_refl Hlast) as [H1 H2].
  split; [eexists; exact H1|exact H2].
Defined.

(** X11 on a run: a second pattern comes and goes. *)
Lemma subscribe_unsubscribe_round_trip_witness :
  _subs_counter (run [CallSubscribe "a/#" 2 None; CallUnsubscribe "a/#" 2 None]
                   (run [CallSubscribe temperature 1 None] AWSIoTAscoltatore))
  = _subs_counter (run [CallSubscribe temperature 1 None] AWSIoTAscoltatore)
  ∧ TrieAscoltatore.registrations
      (_ascoltatore (run [CallSubscribe "a/#" 2 None; CallUnsubscribe "a/#" 2 None]
                       (run [CallSubscribe temperature 1 None] AWSIoTAscoltatore)))
    = TrieAscoltatore.registrations
        (_ascoltatore (run [CallSubscribe temperature 1 None] AWSIoTAscoltatore)).
Proof.
  apply (subscribe_unsubscribe_round_trip [CallSubscribe temperature 1 None] 0 "a/#" 2
           None None); try reflexivity.
  apply (bool_decide_unpack _). vm_compute. exact I.
Defined.

(** X12 on a run: callback 2 unsubscribes the pattern of callback 1. *)
Lemma foreign_unsubscribe_takes_the_count_witness :
  count_of (after (CallUnsubscribe temperature 2 None)
              (run [CallSubscribe temperature 1 None] AWSIoTAscoltatore)) temperature = 0
  ∧ wire (after (CallUnsubscribe temperature 2 None)
            (run [CallSubscribe temperature 1 None] AWSIoTAscoltatore))
    = wire (run [CallSubscribe temperature 1 None] AWSIoTAscoltatore)
      ++ [TUnsubscribe (_subTopic temperature) (AckUnsubscribe None)]
  ∧ (temperature, 1)
    ∈ TrieAscoltatore.registrations
        (_ascoltatore (after (CallUnsubscribe temperature 2 None)
                         (run [CallSubscribe temperature 1 None] AWSIoTAscoltatore))).
Proof.
  apply (foreign_unsubscribe_takes_the_count
           (run [CallSubscribe temperature 1 None] AWSIoTAscoltatore) 0 temperature 1 2 None);
    try reflexivity; lia.
Defined.

(** X13 on a run. *)
Lemma subscribe_done_follows_ack_witness :
  tasks (after (CallSubscribe temperature 1 (Some 9)) AWSIoTAscoltatore) = []
  ∧ tasks (run [CallSubscribe temperature 1 (Some 9); OnAck 0] AWSIoTAscoltatore)
    = [TaskDone 9].
Proof.
  destruct (subscribe_done_follows_ack AWSIoTAscoltatore 0 temperature 1 (Some 9)
              eq_refl eq_refl eq_refl) as (H1 & _ & H2 & _).
  split; [exact H1|exact H2].
Defined.

(** X14 on a run: the only subscriber leaves. *)
Lemma unsubscribe_done_witness :
  tasks (after (CallUnsubscribe temperature 1 (Some 9))
           (run [CallSubscribe temperature 1 None; OnAck 0] AWSIoTAscoltatore)) = []
  ∧ tasks (run [CallUnsubscribe temperature 1 (Some 9); OnAck 0]
             (run [CallSubscribe temperature 1 None; OnAck 0] AWSIoTAscoltatore))
    = [TaskDone 9].
Proof.
  assert (count_of (run [CallSubscribe temperature 1 None; OnAck 0] AWSIoTAscoltatore)
            temperature ≤ 1) as Hlast by (vm_compute; lia).
  destruct (unsubscribe_done (run [CallSubscribe temperature 1 None; OnAck 0] AWSIoTAscoltatore)
              0 temperature 1 (Some 9) eq_refl eq_refl) as [_ H].
  destruct (H Hlast) as (H1 & _ & H2).
  split; [exact H1|exact H2].
Defined.

(** X15 on a run: two patterns are replayed, "ready" comes with the second
    acknowledgment of the replay. *)
Lemma ready_follows_last_ack_witness :
  emitted (run (OnConnect :: replicate 1 (OnAck 2)) (run two_patterns AWSIoTAscoltatore)) = []
  ∧ emitted (run (OnConnect :: replicate 2 (OnAck 2)) (run two_patterns AWSIoTAscoltatore))
    = [EvReady 0].
Proof.
  assert (SubsCounter.keys (_subs_counter (run two_patterns AWSIoTAscoltatore)) ≠ [])
    as Hsome by (vm_compute; discriminate).
  destruct (ready_follows_last_ack (run two_patterns AWSIoTAscoltatore) 0 eq_refl Hsome)
    as (H1 & H2 & _).
  split.
  - apply (H1 1). vm_compute. lia.
  - exact H2.
Defined.

(** X16 on an input: a keepalive of 0. *)
Lemma keepalive_is_always_set_witness :
  keepalive (constructor_options (Some {| keepalive := Some (JNum 0); awsiot := None |}))
  = Some (JNum 3000).
Proof.
  destruct (keepalive_is_always_set
              (Some {| keepalive := Some (JNum 0); awsiot := None |}))
    as (v & Hv & _ & _ & _ & H & _).
  rewrite Hv. f_equal. exact (H _ _ eq_refl eq_refl eq_refl).
Defined.
